(** * The polling-and-narration loop of cognitive-ai-frontend

    A shallow embedding of the three React components that host the loop
    ([LiveCognitiveCamera] and [CinematicCognitiveUI] of
    src/LiveCognitiveCamera.jsx, [CognitiveAISystem] of
    src/CognitiveAISystem.jsx):

    - decoded JSON is a JavaScript value ([JS.value]), read with the
      property-access rules of the language (reading a property of
      [undefined] or [null] throws);
    - an event handler is a program of the monad [Eff]: it reads the state
      of the render that created it, queues state updates, calls the host
      (speech synthesis, timers, console) and may throw;
    - React's commit applies the queued updates and re-runs the effect
      (cleanup, then setup) when one of its dependencies changed. *)

From Stdlib Require Import String List Bool Arith Lia PrimFloat FloatAxioms.
Import ListNotations.
Open Scope string_scope.
Open Scope list_scope.
#[local] Set Warnings "-register-all,-inexact-float".

(** ** JavaScript values *)

Module JS.

Inductive value : Type :=
| Undefined
| Null
| Bool (b : bool)
| Num (f : float)
| Str (s : string)
| Arr (items : list value)
| Obj (fields : list (string * value)).

Inductive exn : Type :=
| TypeError
| SyntaxError
| NetworkFailure.

(** The result of evaluating an expression: a value or a thrown exception. *)
Inductive outcome (A : Type) : Type :=
| Ok (a : A)
| Throw (e : exn).
Arguments Ok {A} a.
Arguments Throw {A} e.

(** ToBoolean. *)
Definition truthy (v : value) : bool :=
  match v with
  | Undefined | Null => false
  | Bool b => b
  | Num f => negb (is_zero f || is_nan f)
  | Str s => negb (s =? "")
  | Arr _ | Obj _ => true
  end.

(** The equalities of the language differ on numbers only. The two sides of
    every comparison of the program are a value decoded from the response at
    hand and a primitive or a value decoded from an earlier response, so that
    two objects (or arrays) are never the same reference. *)
Definition equal_with (numeq : float -> float -> bool) (a b : value) : bool :=
  match a, b with
  | Undefined, Undefined => true
  | Null, Null => true
  | Bool x, Bool y => Bool.eqb x y
  | Num x, Num y => numeq x y
  | Str x, Str y => (x =? y)
  | _, _ => false
  end.

(** [a === b] *)
Definition strict_equal : value -> value -> bool :=
  equal_with PrimFloat.eqb.

(** [Object.is(a, b)] *)
Definition same_value : value -> value -> bool :=
  equal_with PrimFloat.Leibniz.eqb.

(** SameValueZero, the comparison of [Array.prototype.includes]. *)
Definition same_value_zero : value -> value -> bool :=
  equal_with (fun x y => PrimFloat.eqb x y || (is_nan x && is_nan y)).

(** The own property [k] of a decoded object, whose keys are distinct. *)
Fixpoint lookup (k : string) (fields : list (string * value)) : value :=
  match fields with
  | [] => Undefined
  | (k', v) :: rest => if k =? k' then v else lookup k rest
  end.

(** [v.k], for the property names of the program ([pipeline],
    [interpretation], [summary], [perception], [objects], [risk], [level],
    [meta], [tone], [label]), none of which is a property of a primitive, of
    an array or of [Object.prototype]. *)
Definition get (v : value) (k : string) : outcome value :=
  match v with
  | Undefined | Null => Throw TypeError
  | Obj fields => Ok (lookup k fields)
  | Bool _ | Num _ | Str _ | Arr _ => Ok Undefined
  end.

(** [v?.k] *)
Definition get_opt (v : value) (k : string) : outcome value :=
  match v with
  | Undefined | Null => Ok Undefined
  | _ => get v k
  end.

(** [a || b] *)
Definition or_else (a b : value) : value :=
  if truthy a then a else b.

(** [haystack.includes(needle)] on strings. *)
Fixpoint includes (haystack needle : string) : bool :=
  String.prefix needle haystack
  || match haystack with
     | EmptyString => false
     | String _ rest => includes rest needle
     end.

(** [items.includes(v)] on arrays. *)
Definition array_includes (items : list value) (v : value) : bool :=
  existsb (fun x => same_value_zero x v) items.

End JS.
Import JS.

(** ** Monads: expressions that may throw, handlers that also have effects *)

Class Monad (M : Type -> Type) : Type := {
  ret : forall {A : Type}, A -> M A;
  bind : forall {A B : Type}, M A -> (A -> M B) -> M B
}.

Declare Scope eff_scope.
Delimit Scope eff_scope with eff.
Notation "x <- c ;; k" := (bind c (fun x => k))
  (at level 61, c at next level, right associativity) : eff_scope.
Notation "c ;; k" := (bind c (fun _ => k))
  (at level 61, right associativity) : eff_scope.
Open Scope eff_scope.

#[export] Instance Monad_outcome : Monad outcome := {
  ret := fun A a => Ok a;
  bind := fun A B c k =>
    match c with
    | Ok a => k a
    | Throw e => Throw e
    end
}.

(** [items.map(f)], where the callback may throw. *)
Fixpoint array_map (f : value -> outcome value) (items : list value)
  : outcome (list value) :=
  match items with
  | [] => Ok []
  | x :: rest =>
      y <- f x ;;
      ys <- array_map f rest ;;
      ret (y :: ys)
  end.

(** ** The host: speech synthesis, timers, console *)

Record voice : Type := { name : string }.

(** A [SpeechSynthesisUtterance]; [voice_of] is [None] for [null] or
    [undefined]. *)
Record utterance : Type := {
  text : value;
  voice_of : option voice;
  rate : float;
  pitch : float;
  volume : float
}.

(** [new SpeechSynthesisUtterance(text)], with the defaults of the platform. *)
Definition new_utterance (t : value) : utterance :=
  {| text := t; voice_of := None; rate := 1; pitch := 1; volume := 1 |}.

Definition set_voice (v : option voice) (u : utterance) : utterance :=
  {| text := text u; voice_of := v; rate := rate u; pitch := pitch u;
     volume := volume u |}.
Definition set_rate (r : float) (u : utterance) : utterance :=
  {| text := text u; voice_of := voice_of u; rate := r; pitch := pitch u;
     volume := volume u |}.
Definition set_pitch (p : float) (u : utterance) : utterance :=
  {| text := text u; voice_of := voice_of u; rate := rate u; pitch := p;
     volume := volume u |}.
Definition set_volume (v : float) (u : utterance) : utterance :=
  {| text := text u; voice_of := voice_of u; rate := rate u; pitch := pitch u;
     volume := v |}.

(** The calls a component makes to the host, in order. [UtteranceEnd] is the
    host's own event: the utterance being spoken has finished. *)
Inductive event : Type :=
| SetInterval (ms : nat)
| ClearInterval
| SpeechCancel
| SpeechSpeak (u : utterance)
| ConsoleLog (msg : string)
| UtteranceEnd.

Definition is_speak (e : event) : bool :=
  match e with SpeechSpeak _ => true | _ => false end.

Definition is_speech_call (e : event) : bool :=
  match e with SpeechCancel | SpeechSpeak _ => true | _ => false end.

(** The texts submitted to the speech engine, in order. *)
Fixpoint spoken (t : list event) : list value :=
  match t with
  | [] => []
  | SpeechSpeak u :: rest => text u :: spoken rest
  | _ :: rest => spoken rest
  end.

(** The host's state: whether the polling timer runs, and the utterances in
    flight (the one being spoken first, then those queued behind it). *)
Record host : Type := {
  polling : bool;
  in_flight : list utterance
}.

Definition host_idle : host := {| polling := false; in_flight := [] |}.

Definition host_step (h : host) (e : event) : host :=
  match e with
  | SetInterval _ => {| polling := true; in_flight := in_flight h |}
  | ClearInterval => {| polling := false; in_flight := in_flight h |}
  | SpeechCancel => {| polling := polling h; in_flight := [] |}
  | SpeechSpeak u => {| polling := polling h; in_flight := in_flight h ++ [u] |}
  | ConsoleLog _ => h
  | UtteranceEnd => {| polling := polling h; in_flight := tl (in_flight h) |}
  end.

Definition replay (h : host) (t : list event) : host :=
  fold_left host_step t h.

(** ** The poll *)

Record response : Type := {
  status : nat;
  body : option value   (* [None]: the body is not JSON *)
}.

(** What [await fetch(url)] gives: [fetch] rejects on a network failure only,
    and resolves for every HTTP status. *)
Inductive poll : Type :=
| FetchRejected
| FetchResolved (res : response).

Definition fetch (p : poll) : outcome response :=
  match p with
  | FetchRejected => Throw NetworkFailure
  | FetchResolved res => Ok res
  end.

(** [res.json()] *)
Definition json (res : response) : outcome value :=
  match body res with
  | Some data => Ok data
  | None => Throw SyntaxError
  end.

(** ** Handlers *)

(** A handler queues state updates (of type [U]) and calls the host; an
    exception leaves what was queued and called before it in place. *)
Definition Eff (U A : Type) : Type :=
  list U * list event -> outcome A * (list U * list event).

#[export] Instance Monad_Eff (U : Type) : Monad (Eff U) := {
  ret := fun A a w => (Ok a, w);
  bind := fun A B c k w =>
    match c w with
    | (Ok a, w') => k a w'
    | (Throw e, w') => (Throw e, w')
    end
}.

(** A state setter of [useState]. *)
Definition set_state {U : Type} (u : U) : Eff U unit :=
  fun w => (Ok tt, (fst w ++ [u], snd w)).

(** A call to the host. *)
Definition call {U : Type} (e : event) : Eff U unit :=
  fun w => (Ok tt, (fst w, snd w ++ [e])).

(** An expression evaluated inside a handler. *)
Definition eval {U A : Type} (c : outcome A) : Eff U A :=
  fun w => (c, w).

(** [try { body } catch { handler }] *)
Definition try_catch {U : Type} (body handler : Eff U unit) : Eff U unit :=
  fun w =>
    match body w with
    | (Ok a, w') => (Ok a, w')
    | (Throw _, w') => handler w'
    end.

(** The updates and the host calls of a handler run to completion. *)
Definition exec {U A : Type} (c : Eff U A) : list U * list event :=
  snd (c ([], [])).

(** ** Components *)

(** A function component with one polling effect: its state, the handlers of
    one render (closed over that render's state), and the effect's setup and
    cleanup. [c_touches_dep s u] tells whether update [u], applied in state
    [s], changes a dependency of the effect ([Object.is] tells them apart). *)
Record component : Type := {
  c_state : Type;
  c_update : Type;
  c_initial : c_state;
  c_apply_update : c_state -> c_update -> c_state;
  c_touches_dep : c_state -> c_update -> bool;
  c_tick : c_state -> poll -> Eff c_update unit;
  c_on_click : c_state -> Eff c_update unit;
  c_setup : list event;
  c_cleanup : list event
}.

Inductive input : Type :=
| Tick (p : poll)
| Click.

(** Serial handling: [step] and [run] take the inputs one at a time, each
    handled by the handlers of the latest render, and do not render. They are
    the executions of a mounted component in which every response arrives
    before the next tick fires and every render succeeds; [play], below,
    gives all executions (requests outstanding across commits, renders that
    throw), and [serial_play_is_run] relates the two. *)
Section Lifecycle.

Variable C : component.

Definition handler (r : c_state C) (i : input) : Eff (c_update C) unit :=
  match i with
  | Tick p => c_tick C r p
  | Click => c_on_click C r
  end.

(** The commit that follows a handler: queued updates are applied in order. *)
Definition commit (s : c_state C) (ups : list (c_update C)) : c_state C :=
  fold_left (c_apply_update C) ups s.

Fixpoint deps_changed (s : c_state C) (ups : list (c_update C)) : bool :=
  match ups with
  | [] => false
  | u :: rest =>
      c_touches_dep C s u || deps_changed (c_apply_update C s u) rest
  end.

(** The effect is torn down and set up again when a dependency changed. *)
Definition rerun (s : c_state C) (ups : list (c_update C)) : list event :=
  if deps_changed s ups then c_cleanup C ++ c_setup C else [].

(** One handler of the latest render and the commit after it: the next state
    and the host calls. *)
Definition step (s : c_state C) (i : input) : c_state C * list event :=
  let '(ups, calls) := exec (handler s i) in
  (commit s ups, calls ++ rerun s ups).

Fixpoint run (s : c_state C) (inputs : list input) : c_state C * list event :=
  match inputs with
  | [] => (s, [])
  | i :: rest =>
      let '(s1, t1) := step s i in
      let '(s2, t2) := run s1 rest in
      (s2, t1 ++ t2)
  end.

(** Mounting runs the effect's setup; dismounting runs its cleanup. *)
Definition mount : c_state C * list event := (c_initial C, c_setup C).
Definition unmount : list event := c_cleanup C.

(** A whole life of the component: mounted, fed [inputs], dismounted. *)
Definition lifetime (inputs : list input) : list event :=
  snd mount ++ snd (run (fst mount) inputs) ++ unmount.

End Lifecycle.

(** [data.pipeline.interpretation.summary] *)
Definition summary_of (data : value) : outcome value :=
  pipeline <- get data "pipeline" ;;
  interpretation <- get pipeline "interpretation" ;;
  get interpretation "summary".

(** ** LiveCognitiveCamera (src/LiveCognitiveCamera.jsx, first component) *)

Module LiveCognitiveCamera.

Record state : Type := {
  thought : value;
  voiceEnabled : bool;
  lastSpoken : value
}.

Definition initial : state :=
  {| thought := Null; voiceEnabled := false; lastSpoken := Str "" |}.

Inductive update : Type :=
| setThought (v : value)
| setVoiceEnabled (b : bool)
| setLastSpoken (v : value).

Definition apply_update (s : state) (u : update) : state :=
  match u with
  | setThought v =>
      {| thought := v; voiceEnabled := voiceEnabled s;
         lastSpoken := lastSpoken s |}
  | setVoiceEnabled b =>
      {| thought := thought s; voiceEnabled := b;
         lastSpoken := lastSpoken s |}
  | setLastSpoken v =>
      {| thought := thought s; voiceEnabled := voiceEnabled s;
         lastSpoken := v |}
  end.

(** The effect's dependencies are [[voiceEnabled, lastSpoken]]. *)
Definition touches_dep (s : state) (u : update) : bool :=
  match u with
  | setThought _ => false
  | setVoiceEnabled b => negb (Bool.eqb (voiceEnabled s) b)
  | setLastSpoken v => negb (same_value (lastSpoken s) v)
  end.

Definition speak (r : state) (t : value) : Eff update unit :=
  if negb (voiceEnabled r) then ret tt
  else
    let utter := new_utterance t in
    let utter := set_rate 1 utter in
    let utter := set_pitch 1 utter in
    call SpeechCancel ;;
    call (SpeechSpeak utter).

Definition tick (r : state) (p : poll) : Eff update unit :=
  try_catch
    (res <- eval (fetch p) ;;
     data <- eval (json res) ;;
     set_state (setThought data) ;;
     summary <- eval (summary_of data) ;;
     if truthy summary && negb (strict_equal summary (lastSpoken r)) then
       speak r summary ;;
       set_state (setLastSpoken summary)
     else ret tt)
    (call (ConsoleLog "Backend not reachable")).

Definition on_click (r : state) : Eff update unit :=
  set_state (setVoiceEnabled true) ;;
  speak r (Str "Voice system activated").

Definition setup : list event := [SetInterval 3000].
Definition cleanup : list event := [ClearInterval].

Definition comp : component :=
  {| c_state := state;
     c_update := update;
     c_initial := initial;
     c_apply_update := apply_update;
     c_touches_dep := touches_dep;
     c_tick := tick;
     c_on_click := on_click;
     c_setup := setup;
     c_cleanup := cleanup |}.

End LiveCognitiveCamera.

(** ** CinematicCognitiveUI (src/LiveCognitiveCamera.jsx, second component) *)

Module CinematicCognitiveUI.

Record state : Type := {
  thought : value;
  loading : bool;
  lastSpoken : value;
  voiceEnabled : bool;
  history : list value
}.

Definition initial : state :=
  {| thought := Null; loading := true; lastSpoken := Str "";
     voiceEnabled := false; history := [] |}.

Inductive update : Type :=
| setThought (v : value)
| setLoading (b : bool)
| setLastSpoken (v : value)
| setVoiceEnabled (b : bool)
| setHistory (f : list value -> list value).

Definition apply_update (s : state) (u : update) : state :=
  match u with
  | setThought v =>
      {| thought := v; loading := loading s; lastSpoken := lastSpoken s;
         voiceEnabled := voiceEnabled s; history := history s |}
  | setLoading b =>
      {| thought := thought s; loading := b; lastSpoken := lastSpoken s;
         voiceEnabled := voiceEnabled s; history := history s |}
  | setLastSpoken v =>
      {| thought := thought s; loading := loading s; lastSpoken := v;
         voiceEnabled := voiceEnabled s; history := history s |}
  | setVoiceEnabled b =>
      {| thought := thought s; loading := loading s;
         lastSpoken := lastSpoken s; voiceEnabled := b;
         history := history s |}
  | setHistory f =>
      {| thought := thought s; loading := loading s;
         lastSpoken := lastSpoken s; voiceEnabled := voiceEnabled s;
         history := f (history s) |}
  end.

(** The effect's dependencies are [[lastSpoken, speak]], and [speak] is
    memoised on [[voiceEnabled]]. *)
Definition touches_dep (s : state) (u : update) : bool :=
  match u with
  | setLastSpoken v => negb (same_value (lastSpoken s) v)
  | setVoiceEnabled b => negb (Bool.eqb (voiceEnabled s) b)
  | setThought _ | setLoading _ | setHistory _ => false
  end.

(** [a || b] on voices: an object is truthy, [undefined] is not. *)
Definition or_voice (a b : option voice) : option voice :=
  match a with
  | Some v => Some v
  | None => b
  end.

Section WithVoices.

(** What [speechSynthesis.getVoices()] returns. *)
Variable voices : list voice.

(** [voices.find(...) || voices.find(...) || voices[0]] *)
Definition preferred : option voice :=
  or_voice (find (fun v => includes (name v) "Google") voices)
    (or_voice (find (fun v => includes (name v) "Microsoft") voices)
       (hd_error voices)).

Definition speak (r : state) (t : value) : Eff update unit :=
  if negb (voiceEnabled r) then ret tt
  else
    let utter := new_utterance t in
    let utter := set_voice preferred utter in
    let utter := set_rate 0.92 utter in
    let utter := set_pitch 1.05 utter in
    let utter := set_volume 1 utter in
    call SpeechCancel ;;
    call (SpeechSpeak utter).

Definition person_low : string :=
  "I can see someone nearby. Everything looks safe.".
Definition person_medium : string := "Someone is close. Stay aware.".
Definition person_high : string := "Warning. Someone is very close.".
Definition laptop_phrase : string := "A laptop is in front of you.".
Definition default_phrase : string := "I'm observing the surroundings.".

(** [objects.map(o => o.label)]: only an array has [map]. *)
Definition labels_of (objects : value) : outcome (list value) :=
  match objects with
  | Arr items => array_map (fun o => get o "label") items
  | _ => Throw TypeError
  end.

(** [thought.pipeline.perception.objects] *)
Definition objects_of (thought : value) : outcome value :=
  pipeline <- get thought "pipeline" ;;
  perception <- get pipeline "perception" ;;
  get perception "objects".

(** [thought.pipeline.risk.level] *)
Definition risk_of (thought : value) : outcome value :=
  pipeline <- get thought "pipeline" ;;
  risk <- get pipeline "risk" ;;
  get risk "level".

(** The [if (labels.includes("person")) { ... }] block: the phrase it returns,
    or [None] when control falls out of it. *)
Definition person_block (labels : list value) (risk : value) : option string :=
  if array_includes labels (Str "person") then
    if strict_equal risk (Str "LOW") then Some person_low
    else if strict_equal risk (Str "MEDIUM") then Some person_medium
    else if strict_equal risk (Str "HIGH") then Some person_high
    else None
  else None.

(** The statements of the function after [labels] is computed. *)
Definition phrase_for (labels : list value) (risk : value) : string :=
  match person_block labels risk with
  | Some phrase => phrase
  | None =>
      if array_includes labels (Str "laptop") then laptop_phrase
      else default_phrase
  end.

Definition humanizeThought (thought : value) : outcome string :=
  objects <- objects_of thought ;;
  risk <- risk_of thought ;;
  labels <- labels_of objects ;;
  ret (phrase_for labels risk).

Definition tick (r : state) (p : poll) : Eff update unit :=
  try_catch
    (res <- eval (fetch p) ;;
     data <- eval (json res) ;;
     set_state (setThought data) ;;
     set_state (setLoading false) ;;
     set_state (setHistory (fun prev => data :: firstn 6 prev)) ;;
     humanSpeech <- eval (humanizeThought data) ;;
     if truthy (Str humanSpeech)
        && negb (strict_equal (Str humanSpeech) (lastSpoken r)) then
       speak r (Str humanSpeech) ;;
       set_state (setLastSpoken (Str humanSpeech))
     else ret tt)
    (ret tt).

Definition on_click (r : state) : Eff update unit :=
  set_state (setVoiceEnabled true) ;;
  speak r (Str "Cognitive voice online").

Definition setup : list event := [SetInterval 3000].
Definition cleanup : list event := [ClearInterval].

Definition comp : component :=
  {| c_state := state;
     c_update := update;
     c_initial := initial;
     c_apply_update := apply_update;
     c_touches_dep := touches_dep;
     c_tick := tick;
     c_on_click := on_click;
     c_setup := setup;
     c_cleanup := cleanup |}.

End WithVoices.

End CinematicCognitiveUI.

(** ** CognitiveAISystem (src/CognitiveAISystem.jsx) *)

Module CognitiveAISystem.

(** The state of the polling-and-narration loop. The component's other state
    ([active], [expandedStage], [expandedPrompt], [expandedRule]) drives the
    documentation browser; no handler below reads or writes it. *)
Record state : Type := {
  thought : value;
  lastSpoken : value;
  voiceEnabled : bool
}.

Definition initial : state :=
  {| thought := Null; lastSpoken := Str ""; voiceEnabled := false |}.

Inductive update : Type :=
| setThought (v : value)
| setLastSpoken (v : value)
| setVoiceEnabled (b : bool).

Definition apply_update (s : state) (u : update) : state :=
  match u with
  | setThought v =>
      {| thought := v; lastSpoken := lastSpoken s;
         voiceEnabled := voiceEnabled s |}
  | setLastSpoken v =>
      {| thought := thought s; lastSpoken := v;
         voiceEnabled := voiceEnabled s |}
  | setVoiceEnabled b =>
      {| thought := thought s; lastSpoken := lastSpoken s;
         voiceEnabled := b |}
  end.

(** The effect's dependencies are [[lastSpoken, voiceEnabled, speakWithTone]],
    and [speakWithTone] is memoised on [[voiceEnabled]]. *)
Definition touches_dep (s : state) (u : update) : bool :=
  match u with
  | setThought _ => false
  | setLastSpoken v => negb (same_value (lastSpoken s) v)
  | setVoiceEnabled b => negb (Bool.eqb (voiceEnabled s) b)
  end.

(** The default of the parameter [tone = "calm"] stands in for an argument
    that is [undefined]. *)
Definition default_calm (tone : value) : value :=
  match tone with
  | Undefined => Str "calm"
  | _ => tone
  end.

(** The [if (tone === "urgent") ... else if (tone === "curious") ... else ...]
    of [speakWithTone]. *)
Definition with_tone (tone : value) (utter : utterance) : utterance :=
  if strict_equal tone (Str "urgent") then
    set_pitch 0.8 (set_rate 1.1 utter)
  else if strict_equal tone (Str "curious") then
    set_pitch 1.2 (set_rate 1.0 utter)
  else
    set_pitch 1.05 (set_rate 0.95 utter).

Definition speakWithTone (r : state) (t : value) (tone : value)
  : Eff update unit :=
  let tone := default_calm tone in
  if negb (voiceEnabled r) then ret tt
  else
    let utter := new_utterance t in
    let utter := with_tone tone utter in
    let utter := set_volume 1 utter in
    call SpeechCancel ;;
    call (SpeechSpeak utter).

(** [data.meta?.tone || "calm"] *)
Definition tone_of (data : value) : outcome value :=
  meta <- get data "meta" ;;
  tone <- get_opt meta "tone" ;;
  ret (or_else tone (Str "calm")).

Definition tick (r : state) (p : poll) : Eff update unit :=
  try_catch
    (res <- eval (fetch p) ;;
     data <- eval (json res) ;;
     set_state (setThought data) ;;
     summary <- eval (summary_of data) ;;
     tone <- eval (tone_of data) ;;
     if truthy summary && negb (strict_equal summary (lastSpoken r))
        && voiceEnabled r then
       speakWithTone r summary tone ;;
       set_state (setLastSpoken summary)
     else ret tt)
    (call (ConsoleLog "Backend not reachable")).

Definition on_click (r : state) : Eff update unit :=
  set_state (setVoiceEnabled true) ;;
  speakWithTone r (Str "Voice system activated") (Str "curious").

Definition setup : list event := [SetInterval 2500].
Definition cleanup : list event := [ClearInterval; SpeechCancel].

Definition comp : component :=
  {| c_state := state;
     c_update := update;
     c_initial := initial;
     c_apply_update := apply_update;
     c_touches_dep := touches_dep;
     c_tick := tick;
     c_on_click := on_click;
     c_setup := setup;
     c_cleanup := cleanup |}.

End CognitiveAISystem.

(** ** Sample responses *)

(** A response with status [200] whose body decodes to [data]. *)
Definition received (data : value) : poll :=
  FetchResolved {| status := 200; body := Some data |}.

(** A well-formed Thought: the shape the backend is expected to send. *)
Definition well_formed_thought
  (summary : string) (overall : float) (level : string) (labels : list string)
  : value :=
  Obj [("pipeline",
        Obj [("perception",
              Obj [("objects",
                    Arr (map (fun l => Obj [("label", Str l)]) labels))]);
             ("interpretation", Obj [("summary", Str summary)]);
             ("uncertainty", Obj [("overall", Num overall)]);
             ("risk", Obj [("level", Str level)])])].

(** The body of an error response of the backend's web framework. *)
Definition not_found_body : value := Obj [("detail", Str "Not Found")].

(** ** Properties of traces and runs *)

(** The utterance [speak] builds in CinematicCognitiveUI. *)
Definition cinematic_utterance (voices : list voice) (t : value) : utterance :=
  set_volume 1
    (set_pitch 1.05
       (set_rate 0.92
          (set_voice (CinematicCognitiveUI.preferred voices)
             (new_utterance t)))).

(** Every [SpeechSpeak] of the trace comes right after a [SpeechCancel];
    [after_cancel] tells whether the call before the trace was a cancel. *)
Fixpoint cancel_precedes (after_cancel : bool) (t : list event) : bool :=
  match t with
  | [] => true
  | SpeechSpeak _ :: rest => after_cancel && cancel_precedes false rest
  | SpeechCancel :: rest => cancel_precedes true rest
  | _ :: rest => cancel_precedes false rest
  end.

(** [with_endings t t']: [t'] is the trace [t] of the component's calls with
    the host's [UtteranceEnd] events put in, at any places. *)
Inductive with_endings : list event -> list event -> Prop :=
| we_done : with_endings [] []
| we_end (t t' : list event) :
    with_endings t t' -> with_endings t (UtteranceEnd :: t')
| we_call (e : event) (t t' : list event) :
    with_endings t t' -> with_endings (e :: t) (e :: t').

(** Over the life of component [C], every speak comes right after a cancel,
    and the speech engine, idle at the start, never holds two utterances,
    whenever the utterances end. *)
Definition one_at_a_time (C : component) : Prop :=
  forall inputs,
    cancel_precedes false (lifetime C inputs) = true
    /\ forall t' n,
        with_endings (lifetime C inputs) t' ->
        length (in_flight (replay host_idle (firstn n t'))) <= 1.





(** The bodies that the ticks of [inputs] decoded, oldest first. *)
Fixpoint decoded (inputs : list input) : list value :=
  match inputs with
  | [] => []
  | Tick (FetchResolved res) :: rest =>
      match body res with
      | Some data => data :: decoded rest
      | None => decoded rest
      end
  | _ :: rest => decoded rest
  end.

(** The phrases [humanizeThought] can return. *)
Definition phrases : list string :=
  [CinematicCognitiveUI.person_low;
   CinematicCognitiveUI.person_medium;
   CinematicCognitiveUI.person_high;
   CinematicCognitiveUI.laptop_phrase;
   CinematicCognitiveUI.default_phrase].

(** The response of the backend to a request it cannot serve: a non-OK
    status with a JSON body that is no Thought. *)
Definition not_found : poll :=
  FetchResolved {| status := 404; body := Some not_found_body |}.

(** ** What the renders read *)

(** [thought.pipeline.uncertainty.overall] *)
Definition overall_of (thought : value) : outcome value :=
  pipeline <- get thought "pipeline" ;;
  uncertainty <- get pipeline "uncertainty" ;;
  get uncertainty "overall".

(** What the overlay shows: the summary, the operand of
    [Math.round(... * 100)] and the risk level. *)
Record overlay : Type := {
  shown_summary : value;
  shown_overall : value;
  shown_level : value
}.

(** The property reads of [{thought && (...)}] in the renders of
    LiveCognitiveCamera and CognitiveAISystem, in the order of the JSX:
    [None] when [thought] is falsy. A read that throws makes the render
    throw; reads that all return do not make it succeed, since React also
    refuses some of the values read as children ([overlay_renders]). *)
Definition overlay_reads (thought : value) : outcome (option overlay) :=
  if truthy thought then
    summary <- summary_of thought ;;
    overall <- overall_of thought ;;
    level <- CinematicCognitiveUI.risk_of thought ;;
    ret (Some {| shown_summary := summary; shown_overall := overall;
                 shown_level := level |})
  else ret None.

(** [thought?.pipeline?.risk?.level || "SAFE"], the [risk] of the render of
    CinematicCognitiveUI. *)
Definition cinematic_risk (thought : value) : outcome value :=
  pipeline <- get_opt thought "pipeline" ;;
  risk <- get_opt pipeline "risk" ;;
  level <- get_opt risk "level" ;;
  ret (or_else level (Str "SAFE")).

(** The text colour of the risk badge:
    [risk === "LOW" ? ... : risk === "MEDIUM" ? ... : ...]. *)
Definition badge_colour (risk : value) : string :=
  if strict_equal risk (Str "LOW") then "#00e676"
  else if strict_equal risk (Str "MEDIUM") then "#ff9100"
  else "#ff1744".

(** The property reads of the render of CinematicCognitiveUI, in order: the
    operand of [confidence], [risk], the summary of the floating thought and
    the summaries of the timeline ([history.map(h => h.pipeline...)]). *)
Record cinematic_view : Type := {
  confidence_operand : option value;
  risk_label : value;
  floating_summary : option value;
  timeline : list value
}.

Definition cinematic_reads (s : CinematicCognitiveUI.state)
  : outcome cinematic_view :=
  let thought := CinematicCognitiveUI.thought s in
  confidence <- (if truthy thought then
                   overall <- overall_of thought ;; ret (Some overall)
                 else ret None) ;;
  risk <- cinematic_risk thought ;;
  floating <- (if truthy thought then
                 summary <- summary_of thought ;; ret (Some summary)
               else ret None) ;;
  summaries <- array_map summary_of (CinematicCognitiveUI.history s) ;;
  ret {| confidence_operand := confidence; risk_label := risk;
         floating_summary := floating; timeline := summaries |}.

(** ** Renders that throw *)

(** What React accepts as a child of an element: text, numbers and the values
    it renders as nothing, and arrays of those; it throws on a plain
    object. *)
Fixpoint valid_child (v : value) : bool :=
  match v with
  | Obj _ => false
  | Arr items => forallb valid_child items
  | Undefined | Null | Bool _ | Num _ | Str _ => true
  end.

(** Whether the overlay of LiveCognitiveCamera and of CognitiveAISystem
    renders: its reads return, and the summary and the risk level, which are
    children, are accepted ([Math.round(overall * 100)] is a number). *)
Definition overlay_renders (thought : value) : bool :=
  match overlay_reads thought with
  | Ok None => true
  | Ok (Some shown) =>
      valid_child (shown_summary shown) && valid_child (shown_level shown)
  | Throw _ => false
  end.

(** Whether the render of CinematicCognitiveUI succeeds: its reads return,
    and the risk label, the summary of the floating thought and the
    summaries of the timeline are accepted as children. *)
Definition cinematic_renders (s : CinematicCognitiveUI.state) : bool :=
  match cinematic_reads s with
  | Ok view =>
      valid_child (risk_label view)
      && match floating_summary view with
         | Some summary => valid_child summary
         | None => true
         end
      && forallb valid_child (timeline view)
  | Throw _ => false
  end.

(** ** Every execution of a mounted component *)

(** A component with its render. *)
Record webapp : Type := {
  app_comp : component;
  renders : c_state app_comp -> bool
}.

(** A mounted instance: the committed state; the state of the render that
    last ran the effect, which the interval's callback closes over; whether
    the tree is still mounted; and the closures of the ticks that await
    their response, oldest first. *)
Record instance (C : component) : Type := {
  committed : c_state C;
  closure : c_state C;
  alive : bool;
  pending : list (c_state C)
}.
Arguments committed {C} _.
Arguments closure {C} _.
Arguments alive {C} _.
Arguments pending {C} _.

(** What happens to an instance: the interval fires and a tick starts its
    request; the request at position [k] among the outstanding ones is
    answered; the user clicks Enable Voice. *)
Inductive action : Type :=
| Fire
| Respond (k : nat) (p : poll)
| Press.

Definition remove_nth {A : Type} (k : nat) (l : list A) : list A :=
  firstn k l ++ skipn (S k) l.

Section Executions.

Variable A : webapp.
Let C : component := app_comp A.

(** The handler of input [i] closed over the render state [r] runs to its
    end, leaving [rest] outstanding. On a mounted tree its updates are
    applied to the committed state and the component renders: when the
    render returns, the effect is re-run if a dependency changed; when it
    throws, React removes the tree, which runs the cleanup of the effect.
    On a removed tree the updates are dropped, the host calls are not. *)
Definition settle (m : instance C) (r : c_state C) (i : input)
  (rest : list (c_state C)) : instance C * list event :=
  let '(ups, calls) := exec (handler C r i) in
  if alive m then
    let s' := commit C (committed m) ups in
    if renders A s' then
      ({| committed := s';
          closure := if deps_changed C (committed m) ups then s'
                     else closure m;
          alive := true;
          pending := rest |},
       calls ++ rerun C (committed m) ups)
    else
      ({| committed := s'; closure := closure m; alive := false;
          pending := rest |},
       calls ++ c_cleanup C)
  else
    ({| committed := committed m; closure := closure m; alive := false;
        pending := rest |},
     calls).

Definition act (m : instance C) (a : action) : instance C * list event :=
  match a with
  | Fire =>
      (if alive m then
         {| committed := committed m; closure := closure m; alive := true;
            pending := pending m ++ [closure m] |}
       else m,
       [])
  | Respond k p =>
      match nth_error (pending m) k with
      | Some r => settle m r (Tick p) (remove_nth k (pending m))
      | None => (m, [])
      end
  | Press =>
      if alive m then settle m (committed m) Click (pending m) else (m, [])
  end.

Fixpoint play (m : instance C) (acts : list action)
  : instance C * list event :=
  match acts with
  | [] => (m, [])
  | a :: rest =>
      let '(m1, t1) := act m a in
      let '(m2, t2) := play m1 rest in
      (m2, t1 ++ t2)
  end.

(** A mounted instance at rest in state [s]: nothing outstanding, the effect
    set up by the render of [s]. *)
Definition at_rest (s : c_state C) : instance C :=
  {| committed := s; closure := s; alive := true; pending := [] |}.

(** Mounting: the initial render, then the setup of the effect. *)
Definition launch : instance C * list event :=
  (at_rest (c_initial C), c_setup C).

End Executions.

Arguments settle A m r i rest : rename.
Arguments act A m a : rename.
Arguments play A m acts : rename.
Arguments at_rest A s : rename.
Arguments launch A : rename.


Definition LiveCognitiveCamera_app : webapp :=
  {| app_comp := LiveCognitiveCamera.comp;
     renders := fun s => overlay_renders (LiveCognitiveCamera.thought s) |}.

Definition CinematicCognitiveUI_app (voices : list voice) : webapp :=
  {| app_comp := CinematicCognitiveUI.comp voices;
     renders := cinematic_renders |}.

Definition CognitiveAISystem_app : webapp :=
  {| app_comp := CognitiveAISystem.comp;
     renders := fun s => overlay_renders (CognitiveAISystem.thought s) |}.

(** A body with a summary, an uncertainty and a risk level and without
    [perception]: the overlay renders it, [humanizeThought] throws on it. *)
Definition no_perception : value :=
  Obj [("pipeline",
        Obj [("interpretation", Obj [("summary", Str "unseen")]);
             ("uncertainty", Obj [("overall", Num 0.5)]);
             ("risk", Obj [("level", Str "LOW")])])].

(** Seven well-formed Thoughts, the newest first. *)
Definition seven_thoughts : list value :=
  map (fun s => well_formed_thought s 0.5 "LOW" ["person"])
    ["7"; "6"; "5"; "4"; "3"; "2"; "1"].

(** Whether a record of the history can be shown in the timeline: its
    summary can be read and is accepted as a child. *)
Definition record_ok (h : value) : bool :=
  match summary_of h with
  | Ok summary => valid_child summary
  | Throw _ => false
  end.

(** Whether the render of CinematicCognitiveUI gets past the reads and the
    children that depend on the Thought alone. *)
Definition thought_ok (thought : value) : bool :=
  (if truthy thought then
     match overall_of thought with
     | Ok _ => record_ok thought
     | Throw _ => false
     end
   else true)
  && match cinematic_risk thought with
     | Ok risk => valid_child risk
     | Throw _ => false
     end.

(** ** More properties of traces and runs *)

Definition is_click (i : input) : bool :=
  match i with Click => true | Tick _ => false end.

(** A poll that throws before a body is decoded. *)
Definition failing (p : poll) : Prop :=
  p = FetchRejected
  \/ exists st, p = FetchResolved {| status := st; body := None |}.

(** The number of interval timers running after event [e], [n] running
    before it. The effects clear the timer they set. *)
Definition timer_step (n : nat) (e : event) : nat :=
  match e with
  | SetInterval _ => S n
  | ClearInterval => pred n
  | _ => n
  end.

Definition timers (n : nat) (t : list event) : nat :=
  fold_left timer_step t n.

Definition is_timer_call (e : event) : bool :=
  match e with SetInterval _ | ClearInterval => true | _ => false end.

(** At most one timer runs after every event of the trace, [n] running
    before it. *)
Fixpoint timer_safe (n : nat) (t : list event) : bool :=
  (n <=? 1)%nat
  && match t with
     | [] => true
     | e :: rest => timer_safe (timer_step n e) rest
     end.

(** [v] is the first voice of the list whose name contains [sub]: what
    [voices.find(v => v.name.includes(sub))] returns. *)
Definition first_named (sub : string) (voices : list voice) (v : voice) : Prop :=
  exists before after,
    voices = before ++ v :: after
    /\ (exists pre post, name v = (pre ++ sub ++ post)%string)
    /\ forall w, In w before ->
         ~ exists pre post, name w = (pre ++ sub ++ post)%string.

(** [null] or [undefined]: the values whose properties cannot be read. *)
Definition nullish (v : value) : Prop := v = Undefined \/ v = Null.

(** Over every execution of [A] from the mount: never two timers, one timer
    as long as the tree is mounted, none once it was removed, and none after
    a dismount. *)
Definition one_timer_while_mounted (A : webapp) : Prop :=
  forall acts,
    let e := play A (fst (launch A)) acts in
    let t := snd (launch A) ++ snd e in
    (forall k, timers 0 (firstn k t) <= 1)
    /\ timers 0 t = (if alive (fst e) then 1 else 0)
    /\ timers 0 (t ++ (if alive (fst e) then unmount (app_comp A) else []))
       = 0.




(** The number of timers of a reachable instance. *)
Definition running {C : component} (m : instance C) : nat :=
  if alive m then 1 else 0.

(** The response to the tick outstanding at position [k] of [m] carries
    [data], and the render that follows throws: the tree is removed, its
    timer is cleared, and nothing that happens later brings it back. *)
Definition crashed_for_good (A : webapp) (m : instance (app_comp A))
  (k : nat) (data : value) : Prop :=
  let after := act A m (Respond k (received data)) in
  alive (fst after) = false
  /\ filter is_timer_call (snd after) = [ClearInterval]
  /\ forall acts,
       let later := play A (fst after) acts in
       alive (fst later) = false
       /\ committed (fst later) = committed (fst after)
       /\ filter is_timer_call (snd later) = []
       /\ length (pending (fst later)) <= length (pending (fst after)).

(** [s] contains [sub]: what [includes] decides. *)
Definition contains (s sub : string) : Prop :=
  exists pre post, s = (pre ++ sub ++ post)%string.

(** ** Traces *)

Ltac split_ifs :=
  repeat match goal with
         | |- context [if ?b then _ else _] => destruct b eqn:?
         | |- context [match ?o with Ok _ => _ | Throw _ => _ end] =>
             destruct o eqn:?
         end.

Lemma spoken_app (t1 t2 : list event) :
  spoken (t1 ++ t2) = spoken t1 ++ spoken t2.
Proof.
  induction t1 as [|e t1 IH]; simpl; [reflexivity|].
  destruct e; simpl; rewrite ?IH; reflexivity.
Qed.


(** ** What one tick queues and calls *)

(** The statements of a tick after [setThought(data)] in LiveCognitiveCamera,
    as a function of the summary read from the body. *)
Lemma LiveCognitiveCamera_tick_received
  (r : LiveCognitiveCamera.state) (st : nat) (data : value) :
  exec (LiveCognitiveCamera.tick r
          (FetchResolved {| status := st; body := Some data |})) =
  match summary_of data with
  | Ok summary =>
      if truthy summary
         && negb (strict_equal summary (LiveCognitiveCamera.lastSpoken r))
      then
        ([LiveCognitiveCamera.setThought data;
          LiveCognitiveCamera.setLastSpoken summary],
         if LiveCognitiveCamera.voiceEnabled r then
           [SpeechCancel; SpeechSpeak (new_utterance summary)]
         else [])
      else ([LiveCognitiveCamera.setThought data], [])
  | Throw _ =>
      ([LiveCognitiveCamera.setThought data],
       [ConsoleLog "Backend not reachable"])
  end.
Proof.
  unfold exec, LiveCognitiveCamera.tick, try_catch, eval; simpl.
  destruct (summary_of data) as [summary|e]; simpl; [|reflexivity].
  destruct (truthy summary
            && negb (strict_equal summary (LiveCognitiveCamera.lastSpoken r)));
    simpl; [|reflexivity].
  unfold LiveCognitiveCamera.speak.
  destruct (LiveCognitiveCamera.voiceEnabled r); reflexivity.
Qed.

Lemma LiveCognitiveCamera_tick_failed
  (r : LiveCognitiveCamera.state) (p : poll) :
  p = FetchRejected \/ (exists st, p = FetchResolved {| status := st; body := None |}) ->
  exec (LiveCognitiveCamera.tick r p) =
  ([], [ConsoleLog "Backend not reachable"]).
Proof.
  intros [-> | [st ->]]; reflexivity.
Qed.

Lemma CognitiveAISystem_tick_received
  (r : CognitiveAISystem.state) (st : nat) (data : value) :
  exec (CognitiveAISystem.tick r
          (FetchResolved {| status := st; body := Some data |})) =
  match summary_of data, CognitiveAISystem.tone_of data with
  | Ok summary, Ok tone =>
      if truthy summary
         && negb (strict_equal summary (CognitiveAISystem.lastSpoken r))
         && CognitiveAISystem.voiceEnabled r
      then
        ([CognitiveAISystem.setThought data;
          CognitiveAISystem.setLastSpoken summary],
         [SpeechCancel;
          SpeechSpeak
            (set_volume 1
               (CognitiveAISystem.with_tone
                  (CognitiveAISystem.default_calm tone)
                  (new_utterance summary)))])
      else ([CognitiveAISystem.setThought data], [])
  | _, _ =>
      ([CognitiveAISystem.setThought data],
       [ConsoleLog "Backend not reachable"])
  end.
Proof.
  unfold exec, CognitiveAISystem.tick, try_catch, eval; simpl.
  destruct (summary_of data) as [summary|e]; simpl; [|reflexivity].
  destruct (CognitiveAISystem.tone_of data) as [tone|e]; simpl;
    [|reflexivity].
  unfold CognitiveAISystem.speakWithTone.
  destruct (CognitiveAISystem.voiceEnabled r);
    rewrite ?andb_false_r, ?andb_true_r; [|reflexivity].
  destruct (truthy summary
            && negb (strict_equal summary (CognitiveAISystem.lastSpoken r)));
    reflexivity.
Qed.

Lemma CognitiveAISystem_tick_failed
  (r : CognitiveAISystem.state) (p : poll) :
  p = FetchRejected \/ (exists st, p = FetchResolved {| status := st; body := None |}) ->
  exec (CognitiveAISystem.tick r p) =
  ([], [ConsoleLog "Backend not reachable"]).
Proof.
  intros [-> | [st ->]]; reflexivity.
Qed.

Lemma CinematicCognitiveUI_tick_received
  (voices : list voice) (r : CinematicCognitiveUI.state)
  (st : nat) (data : value) :
  exec (CinematicCognitiveUI.tick voices r
          (FetchResolved {| status := st; body := Some data |})) =
  let shown :=
    [CinematicCognitiveUI.setThought data;
     CinematicCognitiveUI.setLoading false;
     CinematicCognitiveUI.setHistory (fun prev => data :: firstn 6 prev)] in
  match CinematicCognitiveUI.humanizeThought data with
  | Ok humanSpeech =>
      if truthy (Str humanSpeech)
         && negb (strict_equal (Str humanSpeech)
                    (CinematicCognitiveUI.lastSpoken r))
      then
        (shown ++ [CinematicCognitiveUI.setLastSpoken (Str humanSpeech)],
         if CinematicCognitiveUI.voiceEnabled r then
           [SpeechCancel;
            SpeechSpeak (cinematic_utterance voices (Str humanSpeech))]
         else [])
      else (shown, [])
  | Throw _ => (shown, [])
  end.
Proof.
  unfold exec, CinematicCognitiveUI.tick, try_catch, eval.
  cbn -[firstn truthy strict_equal CinematicCognitiveUI.humanizeThought].
  destruct (CinematicCognitiveUI.humanizeThought data) as [h|e];
    cbn -[firstn truthy strict_equal]; [|reflexivity].
  destruct (truthy (Str h)
            && negb (strict_equal (Str h) (CinematicCognitiveUI.lastSpoken r)));
    cbn -[firstn]; [|reflexivity].
  unfold CinematicCognitiveUI.speak.
  destruct (CinematicCognitiveUI.voiceEnabled r); reflexivity.
Qed.

Lemma CinematicCognitiveUI_tick_failed
  (voices : list voice) (r : CinematicCognitiveUI.state) (p : poll) :
  p = FetchRejected \/ (exists st, p = FetchResolved {| status := st; body := None |}) ->
  exec (CinematicCognitiveUI.tick voices r p) = ([], []).
Proof.
  intros [-> | [st ->]]; reflexivity.
Qed.

(** ** The current Thought *)

(** The three outcomes of a poll. *)
Lemma poll_cases (p : poll) :
  (p = FetchRejected
   \/ exists st, p = FetchResolved {| status := st; body := None |})
  \/ exists st data, p = FetchResolved {| status := st; body := Some data |}.
Proof.
  destruct p as [|[st [data|]]]; eauto.
Qed.

(** C7: a Thought that was received replaces the current one as a whole: after
    the tick the displayed value is the decoded response itself, whatever was
    displayed before, in each of the three components. *)
Theorem received_thought_replaces_current :
  forall (voices : list voice) (st : nat) (data : value),
    let p := FetchResolved {| status := st; body := Some data |} in
    (forall s,
        LiveCognitiveCamera.thought
          (fst (step LiveCognitiveCamera.comp s (Tick p))) = data)
    /\ (forall s,
        CinematicCognitiveUI.thought
          (fst (step (CinematicCognitiveUI.comp voices) s (Tick p))) = data)
    /\ (forall s,
        CognitiveAISystem.thought
          (fst (step CognitiveAISystem.comp s (Tick p))) = data).
Proof.
  intros voices st data p; subst p.
  repeat split; intros s; unfold step, handler; cbn [c_tick
    LiveCognitiveCamera.comp CinematicCognitiveUI.comp CognitiveAISystem.comp].
  - rewrite LiveCognitiveCamera_tick_received.
    destruct (summary_of data) as [summary|e]; [|reflexivity].
    destruct (truthy summary && _); reflexivity.
  - rewrite CinematicCognitiveUI_tick_received. cbv zeta.
    destruct (CinematicCognitiveUI.humanizeThought data) as [h|e];
      [|reflexivity].
    destruct (truthy (Str h) && _); reflexivity.
  - rewrite CognitiveAISystem_tick_received.
    destruct (summary_of data) as [summary|e]; [|reflexivity].
    destruct (CognitiveAISystem.tone_of data) as [tone|e]; [|reflexivity].
    destruct (truthy summary && _ && _); reflexivity.
Qed.

(** ** Enabling narration *)

(** ** Narration that was never enabled *)

Lemma filter_speech_app (t1 t2 : list event) :
  filter is_speech_call (t1 ++ t2) =
  filter is_speech_call t1 ++ filter is_speech_call t2.
Proof. apply filter_app. Qed.

(** A state property that ticks preserve, and under which no tick calls the
    speech engine, keeps a whole run of ticks silent. *)
Lemma run_silent (C : component) (quiet : c_state C -> Prop) :
  (forall s p, quiet s ->
     quiet (fst (step C s (Tick p)))
     /\ filter is_speech_call (snd (step C s (Tick p))) = []) ->
  forall polls s, quiet s ->
    quiet (fst (run C s (map Tick polls)))
    /\ filter is_speech_call (snd (run C s (map Tick polls))) = [].
Proof.
  intros Hstep polls; induction polls as [|p polls IH]; intros s Hs; simpl.
  - split; [assumption | reflexivity].
  - destruct (Hstep s p Hs) as [Hq Ht].
    destruct (step C s (Tick p)) as [s1 t1]; simpl in Hq, Ht.
    destruct (IH s1 Hq) as [Hq2 Ht2].
    destruct (run C s1 (map Tick polls)) as [s2 t2]; simpl in *.
    split; [assumption|].
    rewrite filter_speech_app, Ht, Ht2; reflexivity.
Qed.



Lemma CognitiveAISystem_tick_silent (s : CognitiveAISystem.state) p :
  CognitiveAISystem.voiceEnabled s = false ->
  CognitiveAISystem.voiceEnabled
    (fst (step CognitiveAISystem.comp s (Tick p))) = false
  /\ filter is_speech_call (snd (step CognitiveAISystem.comp s (Tick p)))
     = [].
Proof.
  intros Hs. unfold step, handler; cbn [c_tick c_update c_state CognitiveAISystem.comp].
  destruct (poll_cases p) as [Hf | (st & data & ->)].
  - rewrite (CognitiveAISystem_tick_failed s p Hf); simpl; auto.
  - rewrite CognitiveAISystem_tick_received.
    destruct (summary_of data) as [summary|e]; [|simpl; auto].
    destruct (CognitiveAISystem.tone_of data) as [tone|e]; [|simpl; auto].
    rewrite Hs, andb_false_r; simpl; auto.
Qed.


(** ** One utterance at a time *)

Lemma cancel_precedes_weaken (b : bool) (t : list event) :
  cancel_precedes false t = true -> cancel_precedes b t = true.
Proof.
  destruct t as [|e t]; [reflexivity|].
  destruct e; simpl; auto; discriminate.
Qed.

Lemma cancel_precedes_app (b : bool) (t1 t2 : list event) :
  cancel_precedes b t1 = true ->
  cancel_precedes false t2 = true ->
  cancel_precedes b (t1 ++ t2) = true.
Proof.
  revert b; induction t1 as [|e t1 IH]; intros b H1 H2; simpl.
  - apply cancel_precedes_weaken; assumption.
  - destruct e; simpl in *; auto.
    apply andb_true_iff in H1 as [-> H1]; simpl; auto.
Qed.

(** With every speak guarded by a cancel, the engine never holds two
    utterances, at any prefix of the trace and whenever utterances end. *)
Lemma guarded_trace_bounded (t t' : list event) :
  with_endings t t' ->
  forall (b : bool) (h : host) (n : nat),
    cancel_precedes b t = true ->
    (b = true -> in_flight h = []) ->
    length (in_flight h) <= 1 ->
    length (in_flight (replay h (firstn n t'))) <= 1.
Proof.
  induction 1 as [|t t' Hw IH|e t t' Hw IH]; intros b h n Hg Hb Hh.
  - destruct n; exact Hh.
  - destruct n as [|n]; [exact Hh|].
    cbn [firstn]. unfold replay; cbn [fold_left].
    apply (IH b); auto.
    + intros Hb'. simpl. rewrite (Hb Hb'). reflexivity.
    + simpl. destruct (in_flight h); simpl in *; lia.
  - destruct n as [|n]; [exact Hh|].
    cbn [firstn]. unfold replay; cbn [fold_left].
    destruct e; simpl in Hg.
    + apply (IH false); simpl; auto; discriminate.
    + apply (IH false); simpl; auto; discriminate.
    + apply (IH true); simpl; auto.
    + apply andb_true_iff in Hg as [-> Hg].
      apply (IH false); simpl; auto; try discriminate.
      rewrite (Hb eq_refl); simpl; auto.
    + apply (IH false); simpl; auto; discriminate.
    + apply (IH false); simpl; auto; try discriminate.
      destruct (in_flight h); simpl in *; lia.
Qed.

(** A component whose handlers and effect guard their speaks does so over a
    whole run. *)
Lemma run_guarded (C : component) :
  (forall s i, cancel_precedes false (snd (exec (handler C s i))) = true) ->
  cancel_precedes false (c_cleanup C ++ c_setup C) = true ->
  forall inputs s, cancel_precedes false (snd (run C s inputs)) = true.
Proof.
  intros Hh He inputs; induction inputs as [|i inputs IH]; intros s; simpl.
  - reflexivity.
  - unfold step. specialize (Hh s i).
    destruct (exec (handler C s i)) as [ups calls]; simpl in Hh.
    specialize (IH (commit C s ups)).
    destruct (run C (commit C s ups) inputs) as [s2 t2]; simpl in *.
    repeat apply cancel_precedes_app; auto.
    unfold rerun; destruct (deps_changed C s ups); auto.
Qed.

Lemma lifetime_guarded (C : component) :
  (forall s i, cancel_precedes false (snd (exec (handler C s i))) = true) ->
  cancel_precedes false (c_setup C) = true ->
  cancel_precedes false (c_cleanup C) = true ->
  cancel_precedes false (c_cleanup C ++ c_setup C) = true ->
  forall inputs, cancel_precedes false (lifetime C inputs) = true.
Proof.
  intros Hh Hs Hc Hcs inputs. unfold lifetime, mount, unmount; simpl.
  repeat apply cancel_precedes_app; auto.
  apply run_guarded; assumption.
Qed.

Lemma guarded_one_at_a_time (C : component) :
  (forall s i, cancel_precedes false (snd (exec (handler C s i))) = true) ->
  cancel_precedes false (c_setup C) = true ->
  cancel_precedes false (c_cleanup C) = true ->
  cancel_precedes false (c_cleanup C ++ c_setup C) = true ->
  one_at_a_time C.
Proof.
  intros Hh Hs Hc Hcs inputs.
  assert (Hg : cancel_precedes false (lifetime C inputs) = true)
    by (apply lifetime_guarded; assumption).
  split; [exact Hg|].
  intros t' n Hw.
  apply (guarded_trace_bounded _ _ Hw false); simpl; auto; discriminate.
Qed.

Lemma LiveCognitiveCamera_handler_guarded s i :
  cancel_precedes false (snd (exec (handler LiveCognitiveCamera.comp s i)))
  = true.
Proof.
  destruct i as [p|]; cbn [handler c_tick c_on_click c_update c_state
                             LiveCognitiveCamera.comp].
  - destruct (poll_cases p) as [Hf | (st & data & ->)].
    + rewrite (LiveCognitiveCamera_tick_failed s p Hf); reflexivity.
    + rewrite LiveCognitiveCamera_tick_received. split_ifs; reflexivity.
  - unfold exec, LiveCognitiveCamera.on_click, LiveCognitiveCamera.speak.
    destruct (LiveCognitiveCamera.voiceEnabled s); reflexivity.
Qed.

Lemma CinematicCognitiveUI_handler_guarded voices s i :
  cancel_precedes false
    (snd (exec (handler (CinematicCognitiveUI.comp voices) s i))) = true.
Proof.
  destruct i as [p|]; cbn [handler c_tick c_on_click c_update c_state
                             CinematicCognitiveUI.comp].
  - destruct (poll_cases p) as [Hf | (st & data & ->)].
    + rewrite (CinematicCognitiveUI_tick_failed voices s p Hf); reflexivity.
    + rewrite CinematicCognitiveUI_tick_received. cbv zeta.
      split_ifs; reflexivity.
  - unfold exec, CinematicCognitiveUI.on_click, CinematicCognitiveUI.speak.
    destruct (CinematicCognitiveUI.voiceEnabled s); reflexivity.
Qed.

Lemma CognitiveAISystem_handler_guarded s i :
  cancel_precedes false (snd (exec (handler CognitiveAISystem.comp s i)))
  = true.
Proof.
  destruct i as [p|]; cbn [handler c_tick c_on_click c_update c_state
                             CognitiveAISystem.comp].
  - destruct (poll_cases p) as [Hf | (st & data & ->)].
    + rewrite (CognitiveAISystem_tick_failed s p Hf); reflexivity.
    + rewrite CognitiveAISystem_tick_received.
      destruct (summary_of data); [|reflexivity].
      destruct (CognitiveAISystem.tone_of data); [|reflexivity].
      split_ifs; reflexivity.
  - unfold exec, CognitiveAISystem.on_click, CognitiveAISystem.speakWithTone.
    destruct (CognitiveAISystem.voiceEnabled s); reflexivity.
Qed.

(** C4: a narration call that reaches the speech engine is a cancel followed
    at once by the speak of the new utterance; over the whole life of each
    component, whatever the ticks and clicks, every speak comes right after a
    cancel, and at no point of the trace does the engine hold more than one
    utterance. *)
Theorem cancel_precedes_every_speak :
  forall (voices : list voice),
    (forall r t,
        snd (exec (LiveCognitiveCamera.speak r t)) =
        if LiveCognitiveCamera.voiceEnabled r
        then [SpeechCancel; SpeechSpeak (new_utterance t)] else [])
    /\ (forall r t,
        snd (exec (CinematicCognitiveUI.speak voices r t)) =
        if CinematicCognitiveUI.voiceEnabled r
        then [SpeechCancel; SpeechSpeak (cinematic_utterance voices t)]
        else [])
    /\ (forall r t tone,
        snd (exec (CognitiveAISystem.speakWithTone r t tone)) =
        if CognitiveAISystem.voiceEnabled r
        then [SpeechCancel;
              SpeechSpeak
                (set_volume 1
                   (CognitiveAISystem.with_tone
                      (CognitiveAISystem.default_calm tone)
                      (new_utterance t)))]
        else [])
    /\ one_at_a_time LiveCognitiveCamera.comp
    /\ one_at_a_time (CinematicCognitiveUI.comp voices)
    /\ one_at_a_time CognitiveAISystem.comp.
Proof.
  intros voices. split; [|split; [|split]].
  - intros r t. unfold exec, LiveCognitiveCamera.speak.
    destruct (LiveCognitiveCamera.voiceEnabled r); reflexivity.
  - intros r t. unfold exec, CinematicCognitiveUI.speak.
    destruct (CinematicCognitiveUI.voiceEnabled r); reflexivity.
  - intros r t tone. unfold exec, CognitiveAISystem.speakWithTone.
    destruct (CognitiveAISystem.voiceEnabled r); reflexivity.
  - repeat split; apply guarded_one_at_a_time;
      auto using LiveCognitiveCamera_handler_guarded,
        CinematicCognitiveUI_handler_guarded,
        CognitiveAISystem_handler_guarded.
Qed.

(** LiveCognitiveCamera narrating "A" then "B", each utterance ending before
    the next tick: the engine holds at most one utterance after nine events. *)
Lemma cancel_precedes_every_speak_witness :
  let life :=
    [Click;
     Tick (received (well_formed_thought "A" 0.5 "LOW" ["person"]));
     Tick (received (well_formed_thought "B" 0.5 "LOW" ["person"]))] in
  let heard :=
    [SetInterval 3000; ClearInterval; SetInterval 3000;
     SpeechCancel; SpeechSpeak (new_utterance (Str "A")); UtteranceEnd;
     ClearInterval; SetInterval 3000;
     SpeechCancel; SpeechSpeak (new_utterance (Str "B")); UtteranceEnd;
     ClearInterval; SetInterval 3000; ClearInterval] in
  with_endings (lifetime LiveCognitiveCamera.comp life) heard
  /\ length (in_flight (replay host_idle (firstn 9 heard))) <= 1.
Proof.
  intros life heard.
  assert (Hw : with_endings (lifetime LiveCognitiveCamera.comp life) heard)
    by (repeat constructor).
  split; [exact Hw|].
  exact (proj2 (proj1 (proj2 (proj2 (proj2 (cancel_precedes_every_speak [])))) life)
           heard 9 Hw).
Defined.

(** ** De-duplicated narration *)

Lemma run_cons (C : component) (s : c_state C) (i : input) (rest : list input) :
  run C s (i :: rest) =
  (fst (run C (fst (step C s i)) rest),
   snd (step C s i) ++ snd (run C (fst (step C s i)) rest)).
Proof.
  simpl. destruct (step C s i) as [s1 t1]; simpl.
  destruct (run C s1 rest); reflexivity.
Qed.

(** A body whose summary can be read is not [undefined] or [null], so its
    tone can be read too. *)
Lemma tone_of_summarised (data summary : value) :
  summary_of data = Ok summary ->
  exists tone, CognitiveAISystem.tone_of data = Ok tone.
Proof.
  unfold summary_of, CognitiveAISystem.tone_of.
  destruct data; simpl; try discriminate; intros _; eauto.
  destruct (lookup "meta" fields); simpl; eauto.
Qed.


(** The tone changes rate and pitch only. *)
Lemma with_tone_text (tone : value) (u : utterance) :
  text (CognitiveAISystem.with_tone tone u) = text u.
Proof.
  unfold CognitiveAISystem.with_tone. split_ifs; reflexivity.
Qed.



(** ** The last spoken text while narration is disabled *)





(** ** The history buffer *)

Lemma CinematicCognitiveUI_history_step voices
  (s : CinematicCognitiveUI.state) (i : input) :
  CinematicCognitiveUI.history
    (fst (step (CinematicCognitiveUI.comp voices) s i)) =
  match decoded [i] with
  | data :: _ => data :: firstn 6 (CinematicCognitiveUI.history s)
  | [] => CinematicCognitiveUI.history s
  end.
Proof.
  destruct i as [p|].
  2:{ unfold step, handler, exec; cbn [c_on_click CinematicCognitiveUI.comp].
      unfold CinematicCognitiveUI.on_click, CinematicCognitiveUI.speak.
      destruct (CinematicCognitiveUI.voiceEnabled s); reflexivity. }
  unfold step, handler; cbn [c_tick c_update c_state CinematicCognitiveUI.comp].
  destruct (poll_cases p) as [Hf | (st & data & ->)].
  - rewrite (CinematicCognitiveUI_tick_failed voices s p Hf).
    destruct Hf as [-> | [st ->]]; reflexivity.
  - rewrite CinematicCognitiveUI_tick_received. cbv zeta.
    cbn [decoded body].
    destruct (CinematicCognitiveUI.humanizeThought data) as [h|e];
      [|reflexivity].
    destruct (truthy (Str h) && _); reflexivity.
Qed.

Lemma firstn_push_truncated (a h : list value) (d : value) :
  firstn 7 (a ++ d :: firstn 6 h) = firstn 7 (a ++ d :: h).
Proof.
  rewrite !firstn_app.
  destruct (7 - length a) as [|k] eqn:Hk; [reflexivity|].
  rewrite !firstn_cons, firstn_firstn.
  replace (Nat.min k 6) with k by lia. reflexivity.
Qed.

Lemma decoded_cons (i : input) (rest : list input) :
  decoded (i :: rest) = decoded [i] ++ decoded rest.
Proof.
  destruct i as [[|res]|]; simpl; try reflexivity.
  destruct (body res); reflexivity.
Qed.

Lemma CinematicCognitiveUI_history_run voices (inputs : list input) :
  forall s,
    length (CinematicCognitiveUI.history s) <= 7 ->
    CinematicCognitiveUI.history
      (fst (run (CinematicCognitiveUI.comp voices) s inputs))
    = firstn 7 (rev (decoded inputs) ++ CinematicCognitiveUI.history s).
Proof.
  induction inputs as [|i inputs IH]; intros s Hs.
  - cbn [run fst decoded rev app]. symmetry. apply firstn_all2. exact Hs.
  - rewrite run_cons; cbn [fst].
    assert (Hi := CinematicCognitiveUI_history_step voices s i).
    rewrite decoded_cons.
    destruct (decoded [i]) as [|d [|d' l]] eqn:Hd.
    + rewrite IH by (rewrite Hi; exact Hs). rewrite Hi. reflexivity.
    + rewrite IH.
      * rewrite Hi. cbn [app rev].
        rewrite firstn_push_truncated, <- app_assoc. reflexivity.
      * rewrite Hi. cbn [length]. rewrite length_firstn. lia.
    + exfalso. destruct i as [[|res]|]; simpl in Hd; try discriminate.
      destruct (body res); discriminate.
Qed.

(** X21: over the serial runs of CinematicCognitiveUI the history buffer,
    empty at the start, holds at every point at most 7 records, newest
    first: it is the 7 most recently decoded bodies, repeats included,
    whether or not the tick that decoded them went on to succeed. A tick that decodes a body puts it in
    front of the first 6 records (so the oldest of 7 is dropped); a click, a
    rejected fetch and a body that is not JSON leave the buffer as it is. *)
Theorem history_holds_seven_most_recent :
  forall (voices : list voice),
    (forall inputs,
        let h :=
          CinematicCognitiveUI.history
            (fst (run (CinematicCognitiveUI.comp voices)
                    CinematicCognitiveUI.initial inputs)) in
        length h <= 7 /\ h = firstn 7 (rev (decoded inputs)))
    /\ (forall s st data,
          CinematicCognitiveUI.history
            (fst (step (CinematicCognitiveUI.comp voices) s
                    (Tick (FetchResolved {| status := st;
                                            body := Some data |}))))
          = data :: firstn 6 (CinematicCognitiveUI.history s))
    /\ (forall s st,
          CinematicCognitiveUI.history
            (fst (step (CinematicCognitiveUI.comp voices) s
                    (Tick (FetchResolved {| status := st; body := None |}))))
          = CinematicCognitiveUI.history s)
    /\ (forall s,
          CinematicCognitiveUI.history
            (fst (step (CinematicCognitiveUI.comp voices) s
                    (Tick FetchRejected)))
          = CinematicCognitiveUI.history s)
    /\ (forall s,
          CinematicCognitiveUI.history
            (fst (step (CinematicCognitiveUI.comp voices) s Click))
          = CinematicCognitiveUI.history s).
Proof.
  intros voices. split; [|repeat split; intros;
                          rewrite CinematicCognitiveUI_history_step;
                          reflexivity].
  intros inputs h.
  assert (Hh : h = firstn 7 (rev (decoded inputs))).
  { subst h. rewrite CinematicCognitiveUI_history_run by (simpl; lia).
    cbn [CinematicCognitiveUI.history CinematicCognitiveUI.initial].
    rewrite app_nil_r. reflexivity. }
  split; [|exact Hh].
  rewrite Hh, length_firstn. lia.
Qed.

(** ** The phrases of humanizeThought *)

Lemma strict_equal_Str (v : value) (s : string) :
  strict_equal v (Str s) = true <-> v = Str s.
Proof.
  destruct v; simpl; split; try discriminate.
  - intros H; apply String.eqb_eq in H; congruence.
  - intros H; injection H as ->; apply String.eqb_refl.
Qed.

Lemma strict_equal_Str_false (v : value) (s : string) :
  v <> Str s -> strict_equal v (Str s) = false.
Proof.
  intros H. destruct (strict_equal v (Str s)) eqn:E; [|reflexivity].
  apply strict_equal_Str in E. contradiction.
Qed.

Lemma phrase_for_in_phrases (labels : list value) (risk : value) :
  In (CinematicCognitiveUI.phrase_for labels risk) phrases.
Proof.
  unfold CinematicCognitiveUI.phrase_for, CinematicCognitiveUI.person_block.
  split_ifs; simpl; auto 6.
Qed.

Lemma humanizeThought_in_phrases (t : value) (p : string) :
  CinematicCognitiveUI.humanizeThought t = Ok p -> In p phrases.
Proof.
  unfold CinematicCognitiveUI.humanizeThought.
  destruct (CinematicCognitiveUI.objects_of t) as [objects|]; simpl;
    [|discriminate].
  destruct (CinematicCognitiveUI.risk_of t) as [risk|]; simpl;
    [|discriminate].
  destruct (CinematicCognitiveUI.labels_of objects) as [labels|]; simpl;
    [|discriminate].
  intros H; injection H as <-. apply phrase_for_in_phrases.
Qed.

Lemma phrases_attained (p : string) :
  In p phrases -> exists t, CinematicCognitiveUI.humanizeThought t = Ok p.
Proof.
  intros [<- | [<- | [<- | [<- | [<- | []]]]]].
  - exists (well_formed_thought "s" 0.5 "LOW" ["person"]); reflexivity.
  - exists (well_formed_thought "s" 0.5 "MEDIUM" ["person"]); reflexivity.
  - exists (well_formed_thought "s" 0.5 "HIGH" ["person"]); reflexivity.
  - exists (well_formed_thought "s" 0.5 "LOW" ["laptop"]); reflexivity.
  - exists (well_formed_thought "s" 0.5 "LOW" []); reflexivity.
Qed.

(** C9, as amended: humanizeThought returns one of exactly five fixed phrases.
    For a Thought whose objects are an array whose labels can be read, the
    function returns; when the labels include "person", risk levels "LOW",
    "MEDIUM" and "HIGH" give their own phrase, whether or not "laptop" is a
    label too; with any other risk level, and when "person" is no label, the
    result is the laptop phrase if "laptop" is a label and the default phrase
    otherwise. *)
Theorem humanizeThought_five_phrases :
  (NoDup phrases
   /\ length phrases = 5
   /\ forall p,
       In p phrases <->
       exists t, CinematicCognitiveUI.humanizeThought t = Ok p)
  /\ forall (t risk : value) (items labels : list value),
      CinematicCognitiveUI.objects_of t = Ok (Arr items) ->
      CinematicCognitiveUI.risk_of t = Ok risk ->
      array_map (fun o => get o "label") items = Ok labels ->
      let person := array_includes labels (Str "person") in
      let laptop := array_includes labels (Str "laptop") in
      let fallback :=
        if laptop then CinematicCognitiveUI.laptop_phrase
        else CinematicCognitiveUI.default_phrase in
      exists p,
        CinematicCognitiveUI.humanizeThought t = Ok p
        /\ (person = true -> risk = Str "LOW" ->
            p = CinematicCognitiveUI.person_low)
        /\ (person = true -> risk = Str "MEDIUM" ->
            p = CinematicCognitiveUI.person_medium)
        /\ (person = true -> risk = Str "HIGH" ->
            p = CinematicCognitiveUI.person_high)
        /\ (person = true -> risk <> Str "LOW" -> risk <> Str "MEDIUM" ->
            risk <> Str "HIGH" -> p = fallback)
        /\ (person = false -> p = fallback).
Proof.
  split.
  - split; [|split; [reflexivity|]].
    + unfold phrases. repeat constructor; simpl; intuition discriminate.
    + intros p; split; [apply phrases_attained|].
      intros [t Ht]. eapply humanizeThought_in_phrases; eauto.
  - intros t risk items labels Ho Hr Hl person laptop fallback.
    exists (CinematicCognitiveUI.phrase_for labels risk). split.
    + unfold CinematicCognitiveUI.humanizeThought. rewrite Ho, Hr. simpl.
      rewrite Hl. reflexivity.
    + unfold CinematicCognitiveUI.phrase_for,
        CinematicCognitiveUI.person_block.
      fold person. fold laptop. fold fallback.
      repeat split.
      * intros -> ->. reflexivity.
      * intros -> ->. reflexivity.
      * intros -> ->. reflexivity.
      * intros -> H1 H2 H3.
        rewrite !strict_equal_Str_false by assumption. reflexivity.
      * intros ->. reflexivity.
Qed.

(** A person next to a laptop at low risk, then at an unlisted risk level. *)
Lemma humanizeThought_five_phrases_witness :
  CinematicCognitiveUI.humanizeThought
    (well_formed_thought "s" 0.5 "LOW" ["laptop"; "person"])
  = Ok CinematicCognitiveUI.person_low
  /\ CinematicCognitiveUI.humanizeThought
       (well_formed_thought "s" 0.5 "CRITICAL" ["laptop"; "person"])
     = Ok CinematicCognitiveUI.laptop_phrase
  /\ CinematicCognitiveUI.humanizeThought
       (well_formed_thought "s" 0.5 "SAFE" ["person"])
     = Ok CinematicCognitiveUI.default_phrase.
Proof.
  pose (labels l := map (fun x => Obj [("label", Str x)]) l).
  split; [|split].
  - destruct (proj2 humanizeThought_five_phrases
                (well_formed_thought "s" 0.5 "LOW" ["laptop"; "person"])
                (Str "LOW") (labels ["laptop"; "person"])
                [Str "laptop"; Str "person"]
                eq_refl eq_refl eq_refl)
      as (p & Hp & Hlow & _).
    rewrite Hp, (Hlow eq_refl eq_refl). reflexivity.
  - destruct (proj2 humanizeThought_five_phrases
                (well_formed_thought "s" 0.5 "CRITICAL" ["laptop"; "person"])
                (Str "CRITICAL") (labels ["laptop"; "person"])
                [Str "laptop"; Str "person"]
                eq_refl eq_refl eq_refl)
      as (p & Hp & _ & _ & _ & Hother & _).
    rewrite Hp, (Hother eq_refl); [reflexivity | discriminate ..].
  - destruct (proj2 humanizeThought_five_phrases
                (well_formed_thought "s" 0.5 "SAFE" ["person"])
                (Str "SAFE") (labels ["person"]) [Str "person"]
                eq_refl eq_refl eq_refl)
      as (p & Hp & _ & _ & _ & Hother & _).
    rewrite Hp, (Hother eq_refl); [reflexivity | discriminate ..].
Defined.

(** C9 as stated counts six phrases: no six distinct strings are all results
    of humanizeThought. *)
Lemma humanizeThought_has_no_six_phrases :
  ~ exists l : list string,
      NoDup l
      /\ length l = 6
      /\ forall p, In p l ->
           exists t, CinematicCognitiveUI.humanizeThought t = Ok p.
Proof.
  intros (l & Hnd & Hlen & Hall).
  assert (Hincl : incl l phrases).
  { intros p Hp. destruct (Hall p Hp) as [t Ht].
    eapply humanizeThought_in_phrases; eauto. }
  apply (NoDup_incl_length Hnd) in Hincl. simpl in Hincl. lia.
Qed.

(** ** Failed polls *)

(** A rejected fetch and a body that is not JSON throw before any setter is
    called: the state is kept and the speech engine is not called. *)
Lemma rejected_poll_keeps_state (voices : list voice) (p : poll) :
  p = FetchRejected
  \/ (exists st, p = FetchResolved {| status := st; body := None |}) ->
  (forall s,
      step LiveCognitiveCamera.comp s (Tick p) =
      (s, [ConsoleLog "Backend not reachable"]))
  /\ (forall s,
      step (CinematicCognitiveUI.comp voices) s (Tick p) = (s, []))
  /\ (forall s,
      step CognitiveAISystem.comp s (Tick p) =
      (s, [ConsoleLog "Backend not reachable"])).
Proof.
  intros Hf. repeat split; intros s; unfold step, handler;
    cbn [c_tick c_update c_state LiveCognitiveCamera.comp
         CinematicCognitiveUI.comp CognitiveAISystem.comp].
  - rewrite (LiveCognitiveCamera_tick_failed s p Hf); reflexivity.
  - rewrite (CinematicCognitiveUI_tick_failed voices s p Hf); reflexivity.
  - rewrite (CognitiveAISystem_tick_failed s p Hf); reflexivity.
Qed.

(** C2 (the code at the failing input): a response with status 404 and the
    JSON body [{"detail": "Not Found"}] is a failed poll, and yet the body
    becomes the displayed Thought in each component, and is put in front of
    the history buffer in CinematicCognitiveUI, because the setters are called
    before the read of [data.pipeline...] throws. The last spoken text is
    kept and nothing is narrated. *)
Theorem malformed_body_overwrites_state :
  forall (voices : list voice),
    (forall s,
        let s' := fst (step LiveCognitiveCamera.comp s (Tick not_found)) in
        LiveCognitiveCamera.thought s' = not_found_body
        /\ LiveCognitiveCamera.lastSpoken s' = LiveCognitiveCamera.lastSpoken s
        /\ snd (step LiveCognitiveCamera.comp s (Tick not_found))
           = [ConsoleLog "Backend not reachable"])
    /\ (forall s,
        let s' :=
          fst (step (CinematicCognitiveUI.comp voices) s (Tick not_found)) in
        CinematicCognitiveUI.thought s' = not_found_body
        /\ CinematicCognitiveUI.history s'
           = not_found_body :: firstn 6 (CinematicCognitiveUI.history s)
        /\ CinematicCognitiveUI.lastSpoken s'
           = CinematicCognitiveUI.lastSpoken s
        /\ snd (step (CinematicCognitiveUI.comp voices) s (Tick not_found))
           = [])
    /\ (forall s,
        let s' := fst (step CognitiveAISystem.comp s (Tick not_found)) in
        CognitiveAISystem.thought s' = not_found_body
        /\ CognitiveAISystem.lastSpoken s' = CognitiveAISystem.lastSpoken s
        /\ snd (step CognitiveAISystem.comp s (Tick not_found))
           = [ConsoleLog "Backend not reachable"]).
Proof.
  intros voices. repeat split.
Qed.

(** ** Dismounting *)

(** C6 (the code at the failing input): the cleanup of CognitiveAISystem
    clears the timer and cancels speech, the cleanups of LiveCognitiveCamera
    and CinematicCognitiveUI clear the timer only: dismounted right after
    narrating a summary, they leave its utterance in flight. *)
Theorem unmount_leaves_utterance_in_flight :
  forall (voices : list voice),
    let A := well_formed_thought "A" 0.5 "LOW" ["person"] in
    let life := [Click; Tick (received A)] in
    (unmount LiveCognitiveCamera.comp = [ClearInterval]
     /\ unmount (CinematicCognitiveUI.comp voices) = [ClearInterval]
     /\ unmount CognitiveAISystem.comp = [ClearInterval; SpeechCancel])
    /\ replay host_idle (lifetime LiveCognitiveCamera.comp life)
       = {| polling := false; in_flight := [new_utterance (Str "A")] |}
    /\ replay host_idle (lifetime (CinematicCognitiveUI.comp voices) life)
       = {| polling := false;
            in_flight :=
              [cinematic_utterance voices
                 (Str CinematicCognitiveUI.person_low)] |}
    /\ replay host_idle (lifetime CognitiveAISystem.comp life)
       = {| polling := false; in_flight := [] |}.
Proof.
  intros voices. repeat split.
Qed.

(** ** State over a run *)

(** A projection of the state that each step updates by [f] is folded by [f]
    over a run. *)
Lemma run_fold (C : component) (A : Type)
  (proj : c_state C -> A) (f : A -> input -> A) :
  (forall s i, proj (fst (step C s i)) = f (proj s) i) ->
  forall inputs s,
    proj (fst (run C s inputs)) = fold_left f inputs (proj s).
Proof.
  intros Hstep inputs; induction inputs as [|i inputs IH]; intros s.
  - reflexivity.
  - rewrite run_cons; cbn [fst fold_left]. rewrite IH, Hstep. reflexivity.
Qed.

Lemma run_invariant (C : component) (P : c_state C -> Prop) :
  (forall s i, P s -> P (fst (step C s i))) ->
  forall inputs s, P s -> P (fst (run C s inputs)).
Proof.
  intros Hstep inputs; induction inputs as [|i inputs IH]; intros s Hs.
  - exact Hs.
  - rewrite run_cons; cbn [fst]. apply IH, Hstep, Hs.
Qed.

(** The updates and calls of a click, by the flag of the render. *)
Lemma LiveCognitiveCamera_click (s : LiveCognitiveCamera.state) :
  exec (LiveCognitiveCamera.on_click s) =
  ([LiveCognitiveCamera.setVoiceEnabled true],
   if LiveCognitiveCamera.voiceEnabled s then
     [SpeechCancel; SpeechSpeak (new_utterance (Str "Voice system activated"))]
   else []).
Proof.
  unfold exec, LiveCognitiveCamera.on_click, LiveCognitiveCamera.speak.
  destruct (LiveCognitiveCamera.voiceEnabled s); reflexivity.
Qed.

Lemma CinematicCognitiveUI_click voices (s : CinematicCognitiveUI.state) :
  exec (CinematicCognitiveUI.on_click voices s) =
  ([CinematicCognitiveUI.setVoiceEnabled true],
   if CinematicCognitiveUI.voiceEnabled s then
     [SpeechCancel;
      SpeechSpeak (cinematic_utterance voices (Str "Cognitive voice online"))]
   else []).
Proof.
  unfold exec, CinematicCognitiveUI.on_click, CinematicCognitiveUI.speak.
  destruct (CinematicCognitiveUI.voiceEnabled s); reflexivity.
Qed.

Lemma CognitiveAISystem_click (s : CognitiveAISystem.state) :
  exec (CognitiveAISystem.on_click s) =
  ([CognitiveAISystem.setVoiceEnabled true],
   if CognitiveAISystem.voiceEnabled s then
     [SpeechCancel;
      SpeechSpeak
        (set_volume 1
           (set_pitch 1.2
              (set_rate 1.0 (new_utterance (Str "Voice system activated")))))]
   else []).
Proof.
  unfold exec, CognitiveAISystem.on_click, CognitiveAISystem.speakWithTone.
  destruct (CognitiveAISystem.voiceEnabled s); reflexivity.
Qed.

(** The state after a step, field by field. *)
Lemma LiveCognitiveCamera_step_state (s : LiveCognitiveCamera.state) i :
  let s' := fst (step LiveCognitiveCamera.comp s i) in
  LiveCognitiveCamera.thought s'
  = match decoded [i] with
    | d :: _ => d
    | [] => LiveCognitiveCamera.thought s
    end
  /\ LiveCognitiveCamera.voiceEnabled s'
     = LiveCognitiveCamera.voiceEnabled s || is_click i.
Proof.
  destruct i as [p|]; unfold step, handler;
    cbn [c_tick c_on_click c_update c_state LiveCognitiveCamera.comp].
  - destruct (poll_cases p) as [Hf | (st & data & ->)].
    + rewrite (LiveCognitiveCamera_tick_failed s p Hf).
      destruct Hf as [-> | [st ->]]; cbn; rewrite ?orb_false_r; auto.
    + rewrite LiveCognitiveCamera_tick_received.
      split_ifs; cbn; rewrite ?orb_false_r; auto.
  - rewrite LiveCognitiveCamera_click. cbn. rewrite ?orb_true_r. auto.
Qed.

Lemma CinematicCognitiveUI_step_state voices
  (s : CinematicCognitiveUI.state) i :
  let s' := fst (step (CinematicCognitiveUI.comp voices) s i) in
  CinematicCognitiveUI.thought s'
  = match decoded [i] with
    | d :: _ => d
    | [] => CinematicCognitiveUI.thought s
    end
  /\ CinematicCognitiveUI.voiceEnabled s'
     = CinematicCognitiveUI.voiceEnabled s || is_click i
  /\ CinematicCognitiveUI.loading s'
     = CinematicCognitiveUI.loading s
       && match decoded [i] with [] => true | _ :: _ => false end.
Proof.
  destruct i as [p|]; unfold step, handler;
    cbn [c_tick c_on_click c_update c_state CinematicCognitiveUI.comp].
  - destruct (poll_cases p) as [Hf | (st & data & ->)].
    + rewrite (CinematicCognitiveUI_tick_failed voices s p Hf).
      destruct Hf as [-> | [st ->]]; cbn;
        rewrite ?orb_false_r, ?andb_true_r; auto.
    + rewrite CinematicCognitiveUI_tick_received. cbv zeta.
      cbn [decoded body].
      destruct (CinematicCognitiveUI.humanizeThought data) as [h|e];
        [destruct (truthy (Str h) && _)|];
        cbn -[firstn]; rewrite ?orb_false_r, ?andb_false_r; auto.
  - rewrite CinematicCognitiveUI_click. cbn.
    rewrite ?orb_true_r, ?andb_true_r. auto.
Qed.

Lemma CognitiveAISystem_step_state (s : CognitiveAISystem.state) i :
  let s' := fst (step CognitiveAISystem.comp s i) in
  CognitiveAISystem.thought s'
  = match decoded [i] with
    | d :: _ => d
    | [] => CognitiveAISystem.thought s
    end
  /\ CognitiveAISystem.voiceEnabled s'
     = CognitiveAISystem.voiceEnabled s || is_click i.
Proof.
  destruct i as [p|]; unfold step, handler;
    cbn [c_tick c_on_click c_update c_state CognitiveAISystem.comp].
  - destruct (poll_cases p) as [Hf | (st & data & ->)].
    + rewrite (CognitiveAISystem_tick_failed s p Hf).
      destruct Hf as [-> | [st ->]]; cbn; rewrite ?orb_false_r; auto.
    + rewrite CognitiveAISystem_tick_received.
      destruct (summary_of data); [|cbn; rewrite ?orb_false_r; auto].
      destruct (CognitiveAISystem.tone_of data);
        [|cbn; rewrite ?orb_false_r; auto].
      split_ifs; cbn; rewrite ?orb_false_r; auto.
  - rewrite CognitiveAISystem_click. cbn. rewrite ?orb_true_r. auto.
Qed.

Lemma fold_last_decoded (inputs : list input) (t : value) :
  fold_left
    (fun t i => match decoded [i] with d :: _ => d | [] => t end) inputs t
  = last (decoded inputs) t.
Proof.
  revert t; induction inputs as [|i inputs IH]; intros t; [reflexivity|].
  cbn [fold_left]. rewrite IH, (decoded_cons i inputs).
  destruct (decoded [i]) as [|d [|d' l]] eqn:Hd.
  - reflexivity.
  - cbn [app]. destruct (decoded inputs) as [|d2 l2] eqn:Hl; [reflexivity|].
    change (last (d :: d2 :: l2) t) with (last (d2 :: l2) t).
    clear. revert d2. induction l2 as [|a l2 IHl]; intros d2; [reflexivity|].
    change (last (d2 :: a :: l2) d) with (last (a :: l2) d).
    change (last (d2 :: a :: l2) t) with (last (a :: l2) t).
    apply IHl.
  - exfalso. destruct i as [[|res]|]; simpl in Hd; try discriminate.
    destruct (body res); discriminate.
Qed.

Lemma fold_orb_click (inputs : list input) (b : bool) :
  fold_left (fun b i => b || is_click i) inputs b
  = b || existsb is_click inputs.
Proof.
  revert b; induction inputs as [|i inputs IH]; intros b; cbn.
  - rewrite orb_false_r; reflexivity.
  - rewrite IH, orb_assoc; reflexivity.
Qed.

(** X1: over any sequence of ticks and clicks, starting in any state, the
    displayed Thought of each component is the body decoded last, and the
    Thought of the start when no body was decoded: rejected fetches, bodies
    that are not JSON and clicks never change it. *)
Theorem thought_is_last_decoded :
  forall (voices : list voice) (inputs : list input),
    (forall s,
        LiveCognitiveCamera.thought
          (fst (run LiveCognitiveCamera.comp s inputs))
        = last (decoded inputs) (LiveCognitiveCamera.thought s))
    /\ (forall s,
        CinematicCognitiveUI.thought
          (fst (run (CinematicCognitiveUI.comp voices) s inputs))
        = last (decoded inputs) (CinematicCognitiveUI.thought s))
    /\ (forall s,
        CognitiveAISystem.thought
          (fst (run CognitiveAISystem.comp s inputs))
        = last (decoded inputs) (CognitiveAISystem.thought s)).
Proof.
  intros voices inputs. split; [|split]; intros s;
    rewrite <- fold_last_decoded.
  - apply (run_fold LiveCognitiveCamera.comp _ LiveCognitiveCamera.thought).
    intros s0 i. apply LiveCognitiveCamera_step_state.
  - apply (run_fold (CinematicCognitiveUI.comp voices) _
             CinematicCognitiveUI.thought).
    intros s0 i. apply CinematicCognitiveUI_step_state.
  - apply (run_fold CognitiveAISystem.comp _ CognitiveAISystem.thought).
    intros s0 i. apply CognitiveAISystem_step_state.
Qed.

(** X2: narration, once enabled, is never disabled: after any sequence of
    ticks and clicks the voice-enabled flag of each component is true exactly
    when it was true at the start or the sequence holds a click. *)
Theorem voice_enabled_by_clicks_only :
  forall (voices : list voice) (inputs : list input),
    (forall s,
        LiveCognitiveCamera.voiceEnabled
          (fst (run LiveCognitiveCamera.comp s inputs))
        = LiveCognitiveCamera.voiceEnabled s || existsb is_click inputs)
    /\ (forall s,
        CinematicCognitiveUI.voiceEnabled
          (fst (run (CinematicCognitiveUI.comp voices) s inputs))
        = CinematicCognitiveUI.voiceEnabled s || existsb is_click inputs)
    /\ (forall s,
        CognitiveAISystem.voiceEnabled
          (fst (run CognitiveAISystem.comp s inputs))
        = CognitiveAISystem.voiceEnabled s || existsb is_click inputs).
Proof.
  intros voices inputs. split; [|split]; intros s;
    rewrite <- fold_orb_click.
  - apply (run_fold LiveCognitiveCamera.comp _
             LiveCognitiveCamera.voiceEnabled).
    intros s0 i. apply LiveCognitiveCamera_step_state.
  - apply (run_fold (CinematicCognitiveUI.comp voices) _
             CinematicCognitiveUI.voiceEnabled).
    intros s0 i. apply CinematicCognitiveUI_step_state.
  - apply (run_fold CognitiveAISystem.comp _ CognitiveAISystem.voiceEnabled).
    intros s0 i. apply CognitiveAISystem_step_state.
Qed.

(** X3: a click on Enable Voice when voice is already enabled speaks the
    activation phrase (cancel, then speak) and changes nothing else: the state
    is kept and the effect is not re-run. With the first click silent, the
    phrase is heard from the second click on. *)
Theorem later_click_speaks_activation_phrase :
  forall (voices : list voice) (th ls : value) (ld : bool) (h : list value),
    let live :=
      {| LiveCognitiveCamera.thought := th;
         LiveCognitiveCamera.voiceEnabled := true;
         LiveCognitiveCamera.lastSpoken := ls |} in
    let cinematic :=
      {| CinematicCognitiveUI.thought := th;
         CinematicCognitiveUI.loading := ld;
         CinematicCognitiveUI.lastSpoken := ls;
         CinematicCognitiveUI.voiceEnabled := true;
         CinematicCognitiveUI.history := h |} in
    let system :=
      {| CognitiveAISystem.thought := th;
         CognitiveAISystem.lastSpoken := ls;
         CognitiveAISystem.voiceEnabled := true |} in
    step LiveCognitiveCamera.comp live Click
    = (live,
       [SpeechCancel;
        SpeechSpeak (new_utterance (Str "Voice system activated"))])
    /\ step (CinematicCognitiveUI.comp voices) cinematic Click
       = (cinematic,
          [SpeechCancel;
           SpeechSpeak
             (cinematic_utterance voices (Str "Cognitive voice online"))])
    /\ step CognitiveAISystem.comp system Click
       = (system,
          [SpeechCancel;
           SpeechSpeak
             {| text := Str "Voice system activated"; voice_of := None;
                rate := 1.0; pitch := 1.2; volume := 1 |}]).
Proof.
  intros; repeat split.
Qed.

Lemma fold_andb_undecoded (inputs : list input) (b : bool) :
  fold_left
    (fun b i => b && match decoded [i] with [] => true | _ :: _ => false end)
    inputs b
  = b && match decoded inputs with [] => true | _ :: _ => false end.
Proof.
  revert b; induction inputs as [|i inputs IH]; intros b; cbn [fold_left].
  - cbn. rewrite andb_true_r; reflexivity.
  - rewrite IH, (decoded_cons i inputs), <- andb_assoc. f_equal.
    destruct (decoded [i]); reflexivity.
Qed.

(** X4: the loader of CinematicCognitiveUI is shown until the first body is
    decoded and never again: after any inputs, [loading] is true exactly when
    it was true at the start and no tick decoded a body (a body that is no
    Thought stops the loader too; rejected fetches and bodies that are not
    JSON do not). *)
Theorem loading_until_first_decoded :
  forall (voices : list voice) (inputs : list input)
         (s : CinematicCognitiveUI.state),
    CinematicCognitiveUI.loading
      (fst (run (CinematicCognitiveUI.comp voices) s inputs))
    = CinematicCognitiveUI.loading s
      && match decoded inputs with [] => true | _ :: _ => false end.
Proof.
  intros voices inputs s. rewrite <- fold_andb_undecoded.
  apply (run_fold (CinematicCognitiveUI.comp voices) _
           CinematicCognitiveUI.loading).
  intros s0 i. apply CinematicCognitiveUI_step_state.
Qed.

(** X5: in CinematicCognitiveUI the displayed Thought and the timeline agree:
    after any inputs from the initial state, either nothing was decoded (no
    Thought, empty history) or the displayed Thought is the first record of
    the history. *)
Theorem thought_heads_history :
  forall (voices : list voice) (inputs : list input),
    let s :=
      fst (run (CinematicCognitiveUI.comp voices)
             CinematicCognitiveUI.initial inputs) in
    (CinematicCognitiveUI.history s = []
     /\ CinematicCognitiveUI.thought s = Null
     /\ decoded inputs = [])
    \/ exists rest,
        CinematicCognitiveUI.history s
        = CinematicCognitiveUI.thought s :: rest.
Proof.
  intros voices inputs s.
  assert (Hh : CinematicCognitiveUI.history s
               = firstn 7 (rev (decoded inputs))).
  { unfold s. rewrite CinematicCognitiveUI_history_run by (simpl; lia).
    cbn [CinematicCognitiveUI.history CinematicCognitiveUI.initial].
    rewrite app_nil_r. reflexivity. }
  assert (Ht : CinematicCognitiveUI.thought s = last (decoded inputs) Null).
  { unfold s. rewrite <- fold_last_decoded.
    apply (run_fold (CinematicCognitiveUI.comp voices) _
             CinematicCognitiveUI.thought).
    intros s0 i. apply CinematicCognitiveUI_step_state. }
  destruct (decoded inputs) as [|d l] eqn:Hd using rev_ind.
  - left. rewrite Hh, Ht. auto.
  - right. rewrite Hh, Ht, last_last, rev_app_distr. cbn [rev app firstn].
    eauto.
Qed.

(** X6: polls that fail before a body is decoded (rejected fetch, body that
    is not JSON) are swallowed, however many: the state of each component is
    kept as a whole, the effect is not re-run, and nothing reaches the host
    but one console line per failure in LiveCognitiveCamera and
    CognitiveAISystem (none in CinematicCognitiveUI, whose catch is empty). *)
Theorem failed_polls_are_swallowed :
  forall (voices : list voice) (polls : list poll),
    Forall failing polls ->
    (forall s,
        run LiveCognitiveCamera.comp s (map Tick polls)
        = (s, repeat (ConsoleLog "Backend not reachable") (length polls)))
    /\ (forall s,
        run (CinematicCognitiveUI.comp voices) s (map Tick polls) = (s, []))
    /\ (forall s,
        run CognitiveAISystem.comp s (map Tick polls)
        = (s, repeat (ConsoleLog "Backend not reachable") (length polls))).
Proof.
  intros voices polls H. induction H as [|p polls Hp _ IH].
  - repeat split.
  - destruct IH as (IH1 & IH2 & IH3).
    destruct (rejected_poll_keeps_state voices p Hp) as (H1 & H2 & H3).
    split; [|split]; intros s; cbn [map run length repeat].
    + rewrite H1, IH1. reflexivity.
    + rewrite H2, IH2. reflexivity.
    + rewrite H3, IH3. reflexivity.
Qed.

Lemma failed_polls_are_swallowed_witness :
  let polls :=
    [FetchRejected; FetchResolved {| status := 502; body := None |}] in
  Forall failing polls
  /\ run LiveCognitiveCamera.comp LiveCognitiveCamera.initial
       (map Tick polls)
     = (LiveCognitiveCamera.initial,
        [ConsoleLog "Backend not reachable";
         ConsoleLog "Backend not reachable"]).
Proof.
  intros polls.
  assert (H : Forall failing polls).
  { apply Forall_cons; [left; reflexivity|].
    apply Forall_cons; [right; exists 502; reflexivity|].
    apply Forall_nil. }
  split; [exact H|].
  exact (proj1 (failed_polls_are_swallowed [] polls H)
           LiveCognitiveCamera.initial).
Defined.

(** ** The polling timer *)

Lemma timers_app (n : nat) (t1 t2 : list event) :
  timers n (t1 ++ t2) = timers (timers n t1) t2.
Proof. apply fold_left_app. Qed.

Lemma timer_safe_prefix (t : list event) :
  forall n k, timer_safe n t = true -> timers n (firstn k t) <= 1.
Proof.
  induction t as [|e t IH]; intros n k H; cbn [timer_safe] in H;
    apply andb_true_iff in H as [Hn H]; apply Nat.leb_le in Hn.
  - destruct k; exact Hn.
  - destruct k as [|k]; [exact Hn|]. cbn [firstn]. apply IH, H.
Qed.

Lemma timer_safe_app (n : nat) (t1 t2 : list event) :
  timer_safe n t1 = true ->
  timer_safe (timers n t1) t2 = true ->
  timer_safe n (t1 ++ t2) = true.
Proof.
  revert n; induction t1 as [|e t1 IH]; intros n H1 H2.
  - exact H2.
  - cbn [app timer_safe] in *. apply andb_true_iff in H1 as [-> H1].
    apply IH; assumption.
Qed.

Lemma untimed_trace (t : list event) :
  forallb (fun e => negb (is_timer_call e)) t = true ->
  forall n, timers n t = n /\ (n <= 1 -> timer_safe n t = true).
Proof.
  induction t as [|e t IH]; intros H n.
  - split; [reflexivity|]. intros Hn. cbn. apply Nat.leb_le in Hn.
    rewrite Hn. reflexivity.
  - cbn [forallb] in H. apply andb_true_iff in H as [He H].
    assert (Hs : timer_step n e = n) by (destruct e; try discriminate; auto).
    destruct (IH H n) as [IH1 IH2]. unfold timers in *. cbn [fold_left].
    rewrite Hs. split; [exact IH1|]. intros Hn. cbn [timer_safe].
    rewrite Hs, (IH2 Hn). apply Nat.leb_le in Hn. rewrite Hn. reflexivity.
Qed.

Lemma LiveCognitiveCamera_handler_untimed s i :
  forallb (fun e => negb (is_timer_call e))
    (snd (exec (handler LiveCognitiveCamera.comp s i))) = true.
Proof.
  destruct i as [p|]; cbn [handler c_tick c_on_click c_update c_state
                             LiveCognitiveCamera.comp].
  - destruct (poll_cases p) as [Hf | (st & data & ->)].
    + rewrite (LiveCognitiveCamera_tick_failed s p Hf); reflexivity.
    + rewrite LiveCognitiveCamera_tick_received. split_ifs; reflexivity.
  - rewrite LiveCognitiveCamera_click. split_ifs; reflexivity.
Qed.

Lemma CinematicCognitiveUI_handler_untimed voices s i :
  forallb (fun e => negb (is_timer_call e))
    (snd (exec (handler (CinematicCognitiveUI.comp voices) s i))) = true.
Proof.
  destruct i as [p|]; cbn [handler c_tick c_on_click c_update c_state
                             CinematicCognitiveUI.comp].
  - destruct (poll_cases p) as [Hf | (st & data & ->)].
    + rewrite (CinematicCognitiveUI_tick_failed voices s p Hf); reflexivity.
    + rewrite CinematicCognitiveUI_tick_received. cbv zeta.
      split_ifs; reflexivity.
  - rewrite CinematicCognitiveUI_click. split_ifs; reflexivity.
Qed.

Lemma CognitiveAISystem_handler_untimed s i :
  forallb (fun e => negb (is_timer_call e))
    (snd (exec (handler CognitiveAISystem.comp s i))) = true.
Proof.
  destruct i as [p|]; cbn [handler c_tick c_on_click c_update c_state
                             CognitiveAISystem.comp].
  - destruct (poll_cases p) as [Hf | (st & data & ->)].
    + rewrite (CognitiveAISystem_tick_failed s p Hf); reflexivity.
    + rewrite CognitiveAISystem_tick_received.
      destruct (summary_of data); [|reflexivity].
      destruct (CognitiveAISystem.tone_of data); [|reflexivity].
      split_ifs; reflexivity.
  - rewrite CognitiveAISystem_click. split_ifs; reflexivity.
Qed.

(** ** Narration and the re-run of the effect *)

(** A value that passes the guard [v && v !== lastSpoken] is not the same
    value as [lastSpoken]: storing it changes the effect's dependency. *)
Lemma narrated_value_changes_dep (v last : value) :
  truthy v = true -> strict_equal v last = false ->
  same_value last v = false.
Proof.
  unfold strict_equal, same_value.
  destruct v, last; cbn; intros Ht He; auto.
  - destruct b, b0; auto.
  - destruct (PrimFloat.Leibniz.eqb f0 f) eqn:E; [|reflexivity].
    apply FloatAxioms.Leibniz.eqb_spec in E; subst f0.
    unfold is_nan in Ht. rewrite He, orb_true_r in Ht. discriminate.
  - rewrite String.eqb_sym. exact He.
Qed.

(** ** Narration in CinematicCognitiveUI *)

Lemma phrases_are_nonempty (ph : string) : In ph phrases -> (ph =? "") = false.
Proof.
  intros [<- | [<- | [<- | [<- | [<- | []]]]]]; reflexivity.
Qed.


(** ** The last spoken text in CognitiveAISystem *)

Lemma CognitiveAISystem_tick_disabled (s : CognitiveAISystem.state) p :
  CognitiveAISystem.voiceEnabled s = false ->
  CognitiveAISystem.voiceEnabled
    (fst (step CognitiveAISystem.comp s (Tick p))) = false
  /\ CognitiveAISystem.lastSpoken
       (fst (step CognitiveAISystem.comp s (Tick p)))
     = CognitiveAISystem.lastSpoken s.
Proof.
  intros Hs. unfold step, handler; cbn [c_tick c_update c_state CognitiveAISystem.comp].
  destruct (poll_cases p) as [Hf | (st & data & ->)].
  - rewrite (CognitiveAISystem_tick_failed s p Hf); simpl; auto.
  - rewrite CognitiveAISystem_tick_received.
    destruct (summary_of data) as [summary|e]; [|simpl; auto].
    destruct (CognitiveAISystem.tone_of data) as [tone|e]; [|simpl; auto].
    rewrite Hs, andb_false_r; simpl; auto.
Qed.

(** X10: CognitiveAISystem does not remember summaries it did not speak. With
    narration disabled, no sequence of ticks changes the last spoken text; so
    when voice is enabled afterwards, the next tick whose summary is a
    non-empty string other than that text is narrated, even if the same
    summary was received while narration was disabled. *)
Theorem system_keeps_lastSpoken_while_disabled :
  forall (th ls d : value) (polls : list poll) (sm : string),
    summary_of d = Ok (Str sm) ->
    sm <> "" ->
    strict_equal (Str sm) ls = false ->
    let s0 :=
      {| CognitiveAISystem.thought := th;
         CognitiveAISystem.lastSpoken := ls;
         CognitiveAISystem.voiceEnabled := false |} in
    let s1 := fst (run CognitiveAISystem.comp s0 (map Tick polls)) in
    CognitiveAISystem.lastSpoken s1 = ls
    /\ spoken (snd (run CognitiveAISystem.comp s1 [Click; Tick (received d)]))
       = [Str sm].
Proof.
  intros th ls d polls sm Hd Hne Hls s0 s1.
  assert (H1 : (CognitiveAISystem.voiceEnabled s1 = false
                /\ CognitiveAISystem.lastSpoken s1 = ls)
               /\ filter is_speech_call
                    (snd (run CognitiveAISystem.comp s0 (map Tick polls)))
                  = []).
  { unfold s1.
    apply (run_silent CognitiveAISystem.comp
             (fun s => CognitiveAISystem.voiceEnabled s = false
                       /\ CognitiveAISystem.lastSpoken s = ls)).
    - intros s p [Hv Hl].
      destruct (CognitiveAISystem_tick_disabled s p Hv) as [Hv' Hl'].
      destruct (CognitiveAISystem_tick_silent s p Hv) as [_ Hq].
      rewrite Hl', Hl. auto.
    - split; reflexivity. }
  destruct H1 as [[Hv Hl] _]. split; [exact Hl|].
  destruct s1 as [t1 l1 v1]; cbn in Hv, Hl; subst v1 l1.
  destruct (tone_of_summarised _ _ Hd) as [tone Htone].
  rewrite run_cons; cbn [snd]; rewrite spoken_app.
  change (step CognitiveAISystem.comp
            {| CognitiveAISystem.thought := t1;
               CognitiveAISystem.lastSpoken := ls;
               CognitiveAISystem.voiceEnabled := false |} Click)
    with ({| CognitiveAISystem.thought := t1;
             CognitiveAISystem.lastSpoken := ls;
             CognitiveAISystem.voiceEnabled := true |},
          [ClearInterval; SpeechCancel; SetInterval 2500]).
  cbn [fst snd spoken app]. rewrite run_cons; cbn [snd run].
  rewrite app_nil_r.
  unfold step, handler, received;
    cbn [c_tick c_update c_state CognitiveAISystem.comp].
  rewrite CognitiveAISystem_tick_received, Hd, Htone.
  cbn [truthy CognitiveAISystem.lastSpoken CognitiveAISystem.voiceEnabled].
  apply String.eqb_neq in Hne. rewrite Hne, Hls. cbn [negb andb snd].
  rewrite spoken_app.
  cbn -[CognitiveAISystem.with_tone CognitiveAISystem.default_calm rerun].
  rewrite with_tone_text. cbn [text new_utterance].
  unfold rerun. destruct (deps_changed _ _ _); reflexivity.
Qed.

Lemma system_keeps_lastSpoken_while_disabled_witness :
  let d := well_formed_thought "A" 0.5 "LOW" ["person"] in
  let s0 :=
    {| CognitiveAISystem.thought := Null;
       CognitiveAISystem.lastSpoken := Str "";
       CognitiveAISystem.voiceEnabled := false |} in
  let s1 :=
    fst (run CognitiveAISystem.comp s0
           (map Tick [received d; FetchRejected; received d])) in
  CognitiveAISystem.lastSpoken s1 = Str ""
  /\ spoken (snd (run CognitiveAISystem.comp s1 [Click; Tick (received d)]))
     = [Str "A"].
Proof.
  intros d.
  apply (system_keeps_lastSpoken_while_disabled Null (Str "") d
           [received d; FetchRejected; received d] "A").
  - reflexivity.
  - discriminate.
  - reflexivity.
Defined.

(** ** The preferred voice *)

Lemma prefix_append (n h : string) :
  String.prefix n h = true <-> exists post, h = (n ++ post)%string.
Proof.
  revert h; induction n as [|c n IH]; intros h.
  - destruct h; cbn; split; eauto.
  - destruct h as [|c' h]; cbn;
      [split; [discriminate | intros [post H]; discriminate]|].
    destruct (Ascii.ascii_dec c c') as [<- | Hc].
    + rewrite IH. split; intros [post H]; exists post; congruence.
    + split; [discriminate | intros [post H]; congruence].
Qed.

Lemma includes_contains (h n : string) :
  includes h n = true <-> contains h n.
Proof.
  unfold contains. split.
  - induction h as [|c h IH]; cbn [includes]; intros H;
      apply orb_true_iff in H as [H | H].
    + apply prefix_append in H as [post H]. exists "", post. exact H.
    + discriminate.
    + apply prefix_append in H as [post H]. exists "", post. exact H.
    + destruct (IH H) as (pre & post & ->). exists (String c pre), post.
      reflexivity.
  - intros (pre & post & ->). induction pre as [|c pre IH].
    + cbn [String.append]. destruct (n ++ post)%string eqn:E;
        cbn [includes]; apply orb_true_iff; left; apply prefix_append;
        exists post; auto.
    + cbn [String.append includes]. rewrite IH. apply orb_true_r.
Qed.

Lemma find_first (sub : string) (voices : list voice) (v : voice) :
  find (fun w => includes (name w) sub) voices = Some v ->
  first_named sub voices v.
Proof.
  induction voices as [|w voices IH]; cbn [find]; [discriminate|].
  destruct (includes (name w) sub) eqn:E.
  - intros H; injection H as <-. exists [], voices.
    split; [reflexivity|]. split; [apply includes_contains, E|].
    intros w' [].
  - intros H. destruct (IH H) as (before & after & -> & Hv & Hb).
    exists (w :: before), after. split; [reflexivity|]. split; [exact Hv|].
    intros w' [<- | Hw]; [|apply Hb, Hw].
    intros Hc. apply includes_contains in Hc. congruence.
Qed.

Lemma find_none_named (sub : string) (voices : list voice) :
  find (fun w => includes (name w) sub) voices = None ->
  forall w, In w voices -> ~ contains (name w) sub.
Proof.
  intros H w Hw Hc. apply includes_contains in Hc.
  rewrite (find_none _ _ H w Hw) in Hc. discriminate.
Qed.

(** X11: the voice CinematicCognitiveUI speaks with. There is none exactly
    when the platform lists no voice; otherwise it is the first listed voice
    whose name contains "Google", or, when no name contains "Google", the
    first whose name contains "Microsoft", or, when no name contains either,
    the first voice of the list. *)
Theorem preferred_voice_order :
  forall (voices : list voice),
    (CinematicCognitiveUI.preferred voices = None <-> voices = [])
    /\ forall v,
        CinematicCognitiveUI.preferred voices = Some v ->
        first_named "Google" voices v
        \/ ((forall w, In w voices -> ~ contains (name w) "Google")
            /\ first_named "Microsoft" voices v)
        \/ ((forall w, In w voices ->
                ~ contains (name w) "Google"
                /\ ~ contains (name w) "Microsoft")
            /\ hd_error voices = Some v).
Proof.
  intros voices. unfold CinematicCognitiveUI.preferred,
    CinematicCognitiveUI.or_voice.
  destruct (find (fun v => includes (name v) "Google") voices) as [g|] eqn:Hg.
  - split.
    + split; [discriminate|]. intros ->; discriminate.
    + intros v H; injection H as <-. left. apply find_first, Hg.
  - destruct (find (fun v => includes (name v) "Microsoft") voices)
      as [m|] eqn:Hm.
    + split.
      * split; [discriminate|]. intros ->; discriminate.
      * intros v H; injection H as <-. right; left.
        split; [apply find_none_named, Hg | apply find_first, Hm].
    + split.
      * destruct voices; cbn; split; try discriminate; auto.
      * intros v H. right; right. split; [|exact H].
        intros w Hw. split; eapply find_none_named; eauto.
Qed.

Lemma preferred_voice_order_witness :
  let voices :=
    [{| name := "Samantha" |};
     {| name := "Microsoft Zira - English" |};
     {| name := "Google US English" |};
     {| name := "Google UK English Female" |}] in
  CinematicCognitiveUI.preferred voices
  = Some {| name := "Google US English" |}
  /\ first_named "Google" voices {| name := "Google US English" |}.
Proof.
  intros voices. split; [reflexivity|].
  destruct (proj2 (preferred_voice_order voices)
              {| name := "Google US English" |} eq_refl)
    as [H | [[H _] | [H _]]].
  - exact H.
  - exfalso. apply (H {| name := "Google US English" |}).
    + right; right; left; reflexivity.
    + exists "", " US English". reflexivity.
  - exfalso.
    apply (proj1 (H {| name := "Google US English" |}
                    (or_intror (or_intror (or_introl eq_refl))))).
    exists "", " US English". reflexivity.
Defined.

(** ** The tone of a narrated Thought *)

Lemma calm_unless_named (tone : value) (name : string) :
  name <> "calm" -> tone <> Str name ->
  strict_equal
    (CognitiveAISystem.default_calm (or_else tone (Str "calm"))) (Str name)
  = false.
Proof.
  intros Hn Ht. apply strict_equal_Str_false.
  unfold or_else. destruct (truthy tone) eqn:E.
  - destruct tone; cbn; try discriminate; auto.
  - cbn. congruence.
Qed.

(** X12: how the body of a response sets the voice of its narration in
    CognitiveAISystem. A narrated summary is spoken at volume 1 with rate 1.1
    and pitch 0.8 when [meta.tone] is "urgent", rate 1.0 and pitch 1.2 when
    it is "curious", and rate 0.95 and pitch 1.05 for every other tone, a
    missing [meta] and a missing or falsy [tone] included. *)
Theorem tone_sets_rate_and_pitch :
  forall (th ls data : value) (st : nat) (sm : string),
    summary_of data = Ok (Str sm) ->
    sm <> "" ->
    strict_equal (Str sm) ls = false ->
    let s :=
      {| CognitiveAISystem.thought := th;
         CognitiveAISystem.lastSpoken := ls;
         CognitiveAISystem.voiceEnabled := true |} in
    exists u meta tone,
      snd (exec (CognitiveAISystem.tick s
                   (FetchResolved {| status := st; body := Some data |})))
      = [SpeechCancel; SpeechSpeak u]
      /\ get data "meta" = Ok meta
      /\ get_opt meta "tone" = Ok tone
      /\ text u = Str sm
      /\ volume u = 1%float
      /\ (tone = Str "urgent" -> rate u = 1.1%float /\ pitch u = 0.8%float)
      /\ (tone = Str "curious" -> rate u = 1.0%float /\ pitch u = 1.2%float)
      /\ (tone <> Str "urgent" -> tone <> Str "curious" ->
          rate u = 0.95%float /\ pitch u = 1.05%float).
Proof.
  intros th ls data st sm Hd Hne Hls s.
  assert (Hm : exists meta tone,
             get data "meta" = Ok meta /\ get_opt meta "tone" = Ok tone).
  { destruct data; cbn in Hd; try discriminate.
    exists (lookup "meta" fields). cbn.
    destruct (lookup "meta" fields); cbn; eauto. }
  destruct Hm as (meta & tone & Hmeta & Htone).
  assert (Ht : CognitiveAISystem.tone_of data
               = Ok (or_else tone (Str "calm"))).
  { unfold CognitiveAISystem.tone_of. rewrite Hmeta. cbn [bind Monad_outcome].
    rewrite Htone. reflexivity. }
  exists (set_volume 1
            (CognitiveAISystem.with_tone
               (CognitiveAISystem.default_calm (or_else tone (Str "calm")))
               (new_utterance (Str sm)))), meta, tone.
  rewrite CognitiveAISystem_tick_received, Hd, Ht.
  cbn [truthy CognitiveAISystem.lastSpoken CognitiveAISystem.voiceEnabled s].
  apply String.eqb_neq in Hne. rewrite Hne, Hls. cbn [negb andb snd].
  split; [reflexivity|]. split; [exact Hmeta|]. split; [exact Htone|].
  split; [cbn [text set_volume]; apply with_tone_text|].
  split; [reflexivity|].
  unfold CognitiveAISystem.with_tone.
  split; [|split].
  - intros ->. split; reflexivity.
  - intros ->. split; reflexivity.
  - intros H1 H2.
    rewrite !calm_unless_named by (assumption || discriminate).
    split; reflexivity.
Qed.

(** A body without [meta] is narrated calmly. *)
Lemma tone_sets_rate_and_pitch_witness :
  exists u,
    snd (exec (CognitiveAISystem.tick
                 {| CognitiveAISystem.thought := Null;
                    CognitiveAISystem.lastSpoken := Str "";
                    CognitiveAISystem.voiceEnabled := true |}
                 (received (well_formed_thought "A" 0.5 "LOW" ["person"]))))
    = [SpeechCancel; SpeechSpeak u]
    /\ rate u = 0.95%float /\ pitch u = 1.05%float.
Proof.
  destruct (tone_sets_rate_and_pitch Null (Str "")
              (well_formed_thought "A" 0.5 "LOW" ["person"]) 200 "A"
              eq_refl ltac:(discriminate) eq_refl)
    as (u & meta & tone & Hu & Hmeta & Htone & _ & _ & _ & _ & Hcalm).
  exists u. split; [exact Hu|].
  injection Hmeta as <-. injection Htone as <-.
  apply Hcalm; discriminate.
Defined.

(** ** Rendering what was decoded *)

Lemma array_map_throws (f : value -> outcome value) (items : list value)
  (x : value) (e : exn) :
  In x items -> f x = Throw e -> exists e', array_map f items = Throw e'.
Proof.
  induction items as [|y items IH]; [intros []|].
  intros [<- | Hx] He; cbn [array_map].
  - rewrite He. cbn. eauto.
  - destruct (f y) as [v|e']; cbn; [|eauto].
    destruct (IH Hx He) as [e' ->]. cbn. eauto.
Qed.

(** X13: a decoded body that is truthy and has no [pipeline] breaks the next
    render of LiveCognitiveCamera and of CognitiveAISystem: the tick stores
    it as the Thought, and the overlay then reads
    [thought.pipeline.interpretation] of [undefined], a TypeError thrown
    outside the tick's try/catch. *)
Theorem overlay_throws_without_pipeline :
  forall (data p : value) (st : nat),
    truthy data = true ->
    get data "pipeline" = Ok p ->
    p = Undefined \/ p = Null ->
    let tick := Tick (FetchResolved {| status := st; body := Some data |}) in
    (forall s,
        overlay_reads
          (LiveCognitiveCamera.thought
             (fst (step LiveCognitiveCamera.comp s tick)))
        = Throw TypeError)
    /\ (forall s,
        overlay_reads
          (CognitiveAISystem.thought
             (fst (step CognitiveAISystem.comp s tick)))
        = Throw TypeError).
Proof.
  intros data p st Ht Hp Hnull tick.
  assert (Ho : overlay_reads data = Throw TypeError).
  { unfold overlay_reads, summary_of. rewrite Ht, Hp.
    destruct Hnull as [-> | ->]; reflexivity. }
  split; intros s.
  - destruct (LiveCognitiveCamera_step_state s tick) as [-> _]. exact Ho.
  - destruct (CognitiveAISystem_step_state s tick) as [-> _]. exact Ho.
Qed.

Lemma overlay_throws_without_pipeline_witness :
  overlay_reads
    (LiveCognitiveCamera.thought
       (fst (step LiveCognitiveCamera.comp LiveCognitiveCamera.initial
               (Tick not_found))))
  = Throw TypeError
  /\ overlay_reads (LiveCognitiveCamera.thought LiveCognitiveCamera.initial)
     = Ok None.
Proof.
  split; [|reflexivity].
  exact (proj1 (overlay_throws_without_pipeline not_found_body Undefined 404
                  eq_refl eq_refl (or_introl eq_refl))
           LiveCognitiveCamera.initial).
Defined.

(** X15: the risk label of CinematicCognitiveUI is read with optional chaining
    and a default, so unlike the other reads of the render it never throws:
    for every Thought, also [null] or one without [pipeline], the label is a
    truthy value, the level that was sent or "SAFE"; and "SAFE", like every
    label other than "LOW" and "MEDIUM", is shown in the badge colour
    #ff1744. *)
Theorem risk_label_defaults_to_SAFE :
  forall (thought : value),
    exists label,
      cinematic_risk thought = Ok label
      /\ truthy label = true
      /\ (label = Str "SAFE"
          \/ CinematicCognitiveUI.risk_of thought = Ok label)
      /\ (label <> Str "LOW" -> label <> Str "MEDIUM" ->
          badge_colour label = "#ff1744").
Proof.
  intros thought.
  assert (Hc : forall label,
             label <> Str "LOW" -> label <> Str "MEDIUM" ->
             badge_colour label = "#ff1744").
  { intros label H1 H2. unfold badge_colour.
    rewrite !strict_equal_Str_false by assumption. reflexivity. }
  assert (Hor : forall level,
             truthy (or_else level (Str "SAFE")) = true
             /\ (or_else level (Str "SAFE") = Str "SAFE"
                 \/ or_else level (Str "SAFE") = level)).
  { intros level. unfold or_else.
    destruct (truthy level) eqn:E; auto. }
  assert (Hsafe : exists label,
             Ok (Str "SAFE") = Ok label
             /\ truthy label = true
             /\ (label = Str "SAFE"
                 \/ CinematicCognitiveUI.risk_of thought = Ok label)
             /\ (label <> Str "LOW" -> label <> Str "MEDIUM" ->
                 badge_colour label = "#ff1744")).
  { exists (Str "SAFE"). split; [reflexivity|]. split; [reflexivity|].
    split; [left; reflexivity | apply Hc]. }
  unfold cinematic_risk.
  destruct thought as [| | | | | |fields]; try exact Hsafe.
  cbn [get_opt get bind ret Monad_outcome].
  destruct (lookup "pipeline" fields) as [| | | | | |fields0] eqn:Hp;
    try exact Hsafe.
  cbn [get_opt get bind ret Monad_outcome].
  destruct (lookup "risk" fields0) as [| | | | | |fields1] eqn:Hr;
    try exact Hsafe.
  cbn [get_opt get bind ret Monad_outcome].
  assert (Hlevel : CinematicCognitiveUI.risk_of (Obj fields)
                   = Ok (lookup "level" fields1)).
  { unfold CinematicCognitiveUI.risk_of. cbn [get bind ret Monad_outcome].
    rewrite Hp. cbn [get bind ret Monad_outcome]. rewrite Hr. reflexivity. }
  destruct (Hor (lookup "level" fields1)) as [Ht [Hs | Hl]];
    eexists; (split; [reflexivity|]); (split; [exact Ht|]);
    (split; [|apply Hc]).
  - left; exact Hs.
  - right; rewrite Hl; exact Hlevel.
Qed.

(** ** When humanizeThought throws *)

Lemma get_returns (v : value) (k : string) :
  (exists x, get v k = Ok x) <-> ~ nullish v.
Proof.
  unfold nullish. destruct v; cbn; split;
    try (intros [x H]; discriminate);
    try (intros H; exfalso; apply H; auto; fail);
    try (intros _ [H | H]; discriminate);
    eauto.
Qed.

Lemma labels_returned (items : list value) :
  (exists labels, array_map (fun o => get o "label") items = Ok labels)
  <-> Forall (fun o => ~ nullish o) items.
Proof.
  induction items as [|o items IH]; cbn [array_map].
  - split; [constructor | eauto].
  - split.
    + intros [labels H].
      destruct (get o "label") as [l|e] eqn:Ho; [|discriminate].
      cbn [bind Monad_outcome] in H.
      destruct (array_map _ items) as [ls|e] eqn:Hi; [|discriminate].
      constructor; [apply (get_returns o "label"); eauto | apply IH; eauto].
    + intros H. inversion H as [|? ? Ho Hi]; subst.
      apply (get_returns o "label") in Ho as [l ->].
      apply IH in Hi as [ls ->]. cbn. eauto.
Qed.

(** X16: humanizeThought returns a phrase exactly when
    [thought.pipeline.perception.objects] is an array none of whose elements
    is [null] or [undefined] and [thought.pipeline.risk.level] can be read;
    for every other value it throws (objects that are missing or no array, a
    [null] among them, a missing [pipeline], [perception] or [risk]), also
    when no label is "person" and the risk level would not be used. Elements
    without a [label] do not make it throw. *)
Theorem humanizeThought_returns_iff :
  forall (thought : value),
    (exists phrase, CinematicCognitiveUI.humanizeThought thought = Ok phrase)
    <-> exists items risk,
          CinematicCognitiveUI.objects_of thought = Ok (Arr items)
          /\ CinematicCognitiveUI.risk_of thought = Ok risk
          /\ Forall (fun o => ~ nullish o) items.
Proof.
  intros thought. unfold CinematicCognitiveUI.humanizeThought. split.
  - intros [phrase H].
    destruct (CinematicCognitiveUI.objects_of thought) as [objects|e];
      [|discriminate].
    cbn [bind Monad_outcome] in H.
    destruct (CinematicCognitiveUI.risk_of thought) as [risk|e];
      [|discriminate].
    cbn [bind Monad_outcome] in H.
    destruct (CinematicCognitiveUI.labels_of objects) as [labels|e] eqn:Hl;
      [|discriminate].
    destruct objects as [| | | | |items|]; try discriminate.
    exists items, risk. repeat split. apply labels_returned. eauto.
  - intros (items & risk & -> & -> & Hi).
    apply labels_returned in Hi as [labels Hl].
    cbn [bind Monad_outcome CinematicCognitiveUI.labels_of].
    rewrite Hl. cbn. eauto.
Qed.

(** ** What is spoken *)

(** Every text spoken over a run is spoken by the step of one of its
    inputs. *)
Lemma run_spoken (C : component) (Q : input -> value -> Prop) :
  (forall s i v, In v (spoken (snd (step C s i))) -> Q i v) ->
  forall inputs s v,
    In v (spoken (snd (run C s inputs))) ->
    exists i, In i inputs /\ Q i v.
Proof.
  intros Hstep inputs; induction inputs as [|i inputs IH]; intros s v Hv.
  - destruct Hv.
  - rewrite run_cons in Hv; cbn [snd] in Hv. rewrite spoken_app in Hv.
    apply in_app_or in Hv as [Hv | Hv].
    + exists i. split; [left; reflexivity | eapply Hstep; eauto].
    + destruct (IH _ _ Hv) as (j & Hj & Hq). exists j. split; [right|]; auto.
Qed.

Lemma rerun_speaks_nothing (C : component) s ups :
  spoken (c_cleanup C) = [] -> spoken (c_setup C) = [] ->
  spoken (rerun C s ups) = [].
Proof.
  intros Hc Hs. unfold rerun. destruct (deps_changed C s ups);
    [rewrite spoken_app, Hc, Hs|]; reflexivity.
Qed.

(** X17: what the components can say. Over any run of
    CinematicCognitiveUI every spoken text is the activation phrase or one of
    the five phrases of humanizeThought, never a summary; over any run of
    LiveCognitiveCamera and of CognitiveAISystem every spoken text is the
    activation phrase or the summary of a body decoded in that run. *)
Theorem spoken_texts_are_known :
  forall (voices : list voice) (inputs : list input) (v : value),
    (forall s,
        In v (spoken (snd (run (CinematicCognitiveUI.comp voices) s inputs)))
        -> v = Str "Cognitive voice online"
           \/ exists phrase, In phrase phrases /\ v = Str phrase)
    /\ (forall s,
        In v (spoken (snd (run LiveCognitiveCamera.comp s inputs))) ->
        v = Str "Voice system activated"
        \/ exists data, In data (decoded inputs) /\ summary_of data = Ok v)
    /\ (forall s,
        In v (spoken (snd (run CognitiveAISystem.comp s inputs))) ->
        v = Str "Voice system activated"
        \/ exists data, In data (decoded inputs) /\ summary_of data = Ok v).
Proof.
  intros voices inputs v.
  assert (Hin : forall i data,
             In i inputs -> decoded [i] = [data] -> In data (decoded inputs)).
  { intros i data Hi Hd. induction inputs as [|j inputs IH]; [destruct Hi|].
    rewrite (decoded_cons j inputs). apply in_or_app.
    destruct Hi as [-> | Hi]; [left; rewrite Hd; left; reflexivity|].
    right. apply IH, Hi. }
  split; [|split]; intros s Hv.
  - destruct (run_spoken (CinematicCognitiveUI.comp voices)
                (fun _ v => v = Str "Cognitive voice online"
                            \/ exists phrase, In phrase phrases
                                              /\ v = Str phrase))
      with (inputs := inputs) (s := s) (v := v) as (i & _ & Hq); auto.
    clear. intros s i v. unfold step.
    destruct (exec (handler (CinematicCognitiveUI.comp voices) s i))
      as [ups calls] eqn:He. cbn [snd]. rewrite spoken_app.
    rewrite (rerun_speaks_nothing (CinematicCognitiveUI.comp voices))
      by reflexivity. rewrite app_nil_r. revert He.
    destruct i as [p|]; cbn [handler c_tick c_on_click c_update c_state
                               CinematicCognitiveUI.comp].
    + destruct (poll_cases p) as [Hf | (st & data & ->)].
      * rewrite (CinematicCognitiveUI_tick_failed voices s p Hf).
        intros [= <- <-] [].
      * rewrite CinematicCognitiveUI_tick_received. cbv zeta.
        destruct (CinematicCognitiveUI.humanizeThought data) as [h|e] eqn:Hh;
          [|intros [= <- <-] []].
        destruct (truthy (Str h) && _); [|intros [= <- <-] []].
        destruct (CinematicCognitiveUI.voiceEnabled s);
          intros [= <- <-]; [|intros []].
        intros [<- | []]. right. exists h.
        split; [eapply humanizeThought_in_phrases; eauto | reflexivity].
    + rewrite CinematicCognitiveUI_click.
      destruct (CinematicCognitiveUI.voiceEnabled s);
        intros [= <- <-]; [|intros []].
      intros [<- | []]. left. reflexivity.
  - destruct (run_spoken LiveCognitiveCamera.comp
                (fun i v => v = Str "Voice system activated"
                            \/ exists data, decoded [i] = [data]
                                            /\ summary_of data = Ok v))
      with (inputs := inputs) (s := s) (v := v) as (i & Hi & Hq); auto.
    2:{ destruct Hq as [Hq | (data & Hd & Hs)]; [left; exact Hq|].
        right. exists data. split; [eapply Hin; eauto | exact Hs]. }
    clear. intros s i v. unfold step.
    destruct (exec (handler LiveCognitiveCamera.comp s i))
      as [ups calls] eqn:He. cbn [snd]. rewrite spoken_app.
    rewrite (rerun_speaks_nothing LiveCognitiveCamera.comp) by reflexivity.
    rewrite app_nil_r. revert He.
    destruct i as [p|]; cbn [handler c_tick c_on_click c_update c_state
                               LiveCognitiveCamera.comp].
    + destruct (poll_cases p) as [Hf | (st & data & ->)].
      * rewrite (LiveCognitiveCamera_tick_failed s p Hf).
        intros [= <- <-] [].
      * rewrite LiveCognitiveCamera_tick_received.
        destruct (summary_of data) as [summary|e] eqn:Hs;
          [|intros [= <- <-] []].
        destruct (truthy summary && _); [|intros [= <- <-] []].
        destruct (LiveCognitiveCamera.voiceEnabled s);
          intros [= <- <-]; [|intros []].
        intros [<- | []]. right. exists data. split; [reflexivity | exact Hs].
    + rewrite LiveCognitiveCamera_click.
      destruct (LiveCognitiveCamera.voiceEnabled s);
        intros [= <- <-]; [|intros []].
      intros [<- | []]. left. reflexivity.
  - destruct (run_spoken CognitiveAISystem.comp
                (fun i v => v = Str "Voice system activated"
                            \/ exists data, decoded [i] = [data]
                                            /\ summary_of data = Ok v))
      with (inputs := inputs) (s := s) (v := v) as (i & Hi & Hq); auto.
    2:{ destruct Hq as [Hq | (data & Hd & Hs)]; [left; exact Hq|].
        right. exists data. split; [eapply Hin; eauto | exact Hs]. }
    clear. intros s i v. unfold step.
    destruct (exec (handler CognitiveAISystem.comp s i))
      as [ups calls] eqn:He. cbn [snd]. rewrite spoken_app.
    rewrite (rerun_speaks_nothing CognitiveAISystem.comp) by reflexivity.
    rewrite app_nil_r. revert He.
    destruct i as [p|]; cbn [handler c_tick c_on_click c_update c_state
                               CognitiveAISystem.comp].
    + destruct (poll_cases p) as [Hf | (st & data & ->)].
      * rewrite (CognitiveAISystem_tick_failed s p Hf).
        intros [= <- <-] [].
      * rewrite CognitiveAISystem_tick_received.
        destruct (summary_of data) as [summary|e] eqn:Hs;
          [|intros [= <- <-] []].
        destruct (CognitiveAISystem.tone_of data) as [tone|e];
          [|intros [= <- <-] []].
        destruct (truthy summary && _ && _); intros [= <- <-]; [|intros []].
        cbn -[CognitiveAISystem.with_tone CognitiveAISystem.default_calm].
        rewrite with_tone_text. cbn [text new_utterance].
        intros [<- | []]. right. exists data. split; [reflexivity | exact Hs].
    + rewrite CognitiveAISystem_click.
      destruct (CognitiveAISystem.voiceEnabled s);
        intros [= <- <-]; [|intros []].
      intros [<- | []]. left. reflexivity.
Qed.

Lemma spoken_texts_are_known_witness :
  let inputs := [Tick (received (well_formed_thought "A" 0.5 "LOW" []))] in
  let s :=
    {| LiveCognitiveCamera.thought := Null;
       LiveCognitiveCamera.voiceEnabled := true;
       LiveCognitiveCamera.lastSpoken := Str "" |} in
  In (Str "A") (spoken (snd (run LiveCognitiveCamera.comp s inputs)))
  /\ (Str "A" = Str "Voice system activated"
      \/ exists data,
          In data (decoded inputs) /\ summary_of data = Ok (Str "A")).
Proof.
  intros inputs s.
  assert (H : In (Str "A")
                (spoken (snd (run LiveCognitiveCamera.comp s inputs))))
    by (left; reflexivity).
  split; [exact H|].
  exact (proj1 (proj2 (spoken_texts_are_known [] inputs (Str "A"))) s H).
Defined.

(** ** The last spoken phrase of CinematicCognitiveUI while disabled *)




(** ** Serial executions *)
















(** ** A failed tick and the history buffer *)

(** C3 (the code at the failing input): in CinematicCognitiveUI, with a
    history of seven Thoughts, a tick whose body has no [perception] fails
    ([humanizeThought] throws into the empty catch, nothing is narrated, the
    last spoken text is kept), and yet the body was put in front of the
    history before the throw and the oldest Thought was dropped: a poll that
    did not succeed removes a record, and the buffer holds a record that is
    no Thought. The render succeeds, so the component goes on. The defect
    is the one of C2: the setters run before the reads that can throw. *)
Theorem failed_tick_evicts_oldest_thought :
  forall (voices : list voice),
    let s :=
      {| CinematicCognitiveUI.thought := hd Null seven_thoughts;
         CinematicCognitiveUI.loading := false;
         CinematicCognitiveUI.lastSpoken :=
           Str CinematicCognitiveUI.person_low;
         CinematicCognitiveUI.voiceEnabled := true;
         CinematicCognitiveUI.history := seven_thoughts |} in
    let m :=
      Build_instance (CinematicCognitiveUI.comp voices) s s true [s] in
    let after :=
      act (CinematicCognitiveUI_app voices) m
        (Respond 0 (received no_perception)) in
    CinematicCognitiveUI.humanizeThought no_perception = Throw TypeError
    /\ snd after = []
    /\ alive (fst after) = true
    /\ CinematicCognitiveUI.lastSpoken (committed (fst after))
       = Str CinematicCognitiveUI.person_low
    /\ CinematicCognitiveUI.history (committed (fst after))
       = no_perception :: removelast seven_thoughts
    /\ last seven_thoughts Null = well_formed_thought "1" 0.5 "LOW" ["person"]
    /\ length (CinematicCognitiveUI.history (committed (fst after))) = 7.
Proof.
  intros voices. repeat split.
Qed.

(** ** The first click *)

(** The click changes nothing that the renders read. *)
Lemma cinematic_renders_click (s : CinematicCognitiveUI.state) (b : bool) :
  cinematic_renders
    (CinematicCognitiveUI.apply_update s
       (CinematicCognitiveUI.setVoiceEnabled b))
  = cinematic_renders s.
Proof. destruct s; reflexivity. Qed.

(** C10, as amended: the click handler of the Enable Voice button calls the
    narration function of the render in which voice is still disabled: the
    handler queues the flag update and makes no call to the host, so the
    activation phrase is not spoken; the flag is set once the update is
    committed. The commit re-runs the effect: in LiveCognitiveCamera and
    CinematicCognitiveUI the first click leads to no speech-synthesis call
    at all, in CognitiveAISystem to the one [cancel] of the effect's
    cleanup. This holds for every mounted instance whose flag is false,
    whatever ticks are outstanding. *)
Theorem first_click_speaks_nothing :
  forall (voices : list voice),
    (forall m : instance LiveCognitiveCamera.comp,
        alive m = true ->
        LiveCognitiveCamera.voiceEnabled (committed m) = false ->
        renders LiveCognitiveCamera_app (committed m) = true ->
        let after := act LiveCognitiveCamera_app m Press in
        exec (LiveCognitiveCamera.on_click (committed m))
        = ([LiveCognitiveCamera.setVoiceEnabled true], [])
        /\ snd after = [ClearInterval; SetInterval 3000]
        /\ filter is_speech_call (snd after) = []
        /\ LiveCognitiveCamera.voiceEnabled (committed (fst after)) = true)
    /\ (forall m : instance (CinematicCognitiveUI.comp voices),
           alive m = true ->
           CinematicCognitiveUI.voiceEnabled (committed m) = false ->
           renders (CinematicCognitiveUI_app voices) (committed m) = true ->
           let after := act (CinematicCognitiveUI_app voices) m Press in
           exec (CinematicCognitiveUI.on_click voices (committed m))
           = ([CinematicCognitiveUI.setVoiceEnabled true], [])
           /\ snd after = [ClearInterval; SetInterval 3000]
           /\ filter is_speech_call (snd after) = []
           /\ CinematicCognitiveUI.voiceEnabled (committed (fst after))
              = true)
    /\ (forall m : instance CognitiveAISystem.comp,
           alive m = true ->
           CognitiveAISystem.voiceEnabled (committed m) = false ->
           renders CognitiveAISystem_app (committed m) = true ->
           let after := act CognitiveAISystem_app m Press in
           exec (CognitiveAISystem.on_click (committed m))
           = ([CognitiveAISystem.setVoiceEnabled true], [])
           /\ snd after = [ClearInterval; SpeechCancel; SetInterval 2500]
           /\ filter is_speech_call (snd after) = [SpeechCancel]
           /\ filter is_speak (snd after) = []
           /\ CognitiveAISystem.voiceEnabled (committed (fst after)) = true).
Proof.
  intros voices. split; [|split]; intros m Ha Hv Hr; cbv zeta;
    unfold act, settle;
    cbn [handler app_comp c_on_click c_update c_state
           LiveCognitiveCamera_app CinematicCognitiveUI_app
           CognitiveAISystem_app LiveCognitiveCamera.comp
           CinematicCognitiveUI.comp CognitiveAISystem.comp];
    rewrite Ha.
  - rewrite LiveCognitiveCamera_click, Hv.
    destruct (committed m) as [th ve ls]. cbn in Hv, Hr. subst ve.
    cbn. rewrite Hr. repeat split.
  - rewrite CinematicCognitiveUI_click, Hv.
    cbn [commit fold_left c_apply_update CinematicCognitiveUI.comp renders
           CinematicCognitiveUI_app] in *.
    rewrite cinematic_renders_click, Hr.
    destruct (committed m) as [th ld ls ve h]. cbn in Hv. subst ve.
    repeat split.
  - rewrite CognitiveAISystem_click, Hv.
    destruct (committed m) as [th ls ve]. cbn in Hv, Hr. subst ve.
    cbn. rewrite Hr. repeat split.
Qed.

(** The first click after the mount. *)
Lemma first_click_speaks_nothing_witness :
  snd (act LiveCognitiveCamera_app (fst (launch LiveCognitiveCamera_app))
         Press)
  = [ClearInterval; SetInterval 3000]
  /\ snd (act CognitiveAISystem_app (fst (launch CognitiveAISystem_app))
            Press)
     = [ClearInterval; SpeechCancel; SetInterval 2500].
Proof.
  split.
  - exact (proj1 (proj2 (proj1 (first_click_speaks_nothing [])
                           (fst (launch LiveCognitiveCamera_app))
                           eq_refl eq_refl eq_refl))).
  - exact (proj1 (proj2 (proj2 (proj2 (first_click_speaks_nothing []))
                           (fst (launch CognitiveAISystem_app))
                           eq_refl eq_refl eq_refl))).
Defined.

(** C10 as stated fails in CognitiveAISystem: the first click, from the
    mount, leads to one speech-synthesis call, the [cancel] of the cleanup
    that runs when the flag change re-runs the effect. *)
Lemma system_first_click_cancels :
  filter is_speech_call
    (snd (act CognitiveAISystem_app (fst (launch CognitiveAISystem_app))
            Press))
  = [SpeechCancel].
Proof.
  reflexivity.
Qed.

(** ** The polling timer over every execution *)

Lemma play_cons (A : webapp) (m : instance (app_comp A)) a acts :
  play A m (a :: acts) =
  (fst (play A (fst (act A m a)) acts),
   snd (act A m a) ++ snd (play A (fst (act A m a)) acts)).
Proof.
  cbn [play]. destruct (act A m a) as [m1 t1]; cbn [fst snd].
  destruct (play A m1 acts); reflexivity.
Qed.

Section Timer.

Variable A : webapp.
Hypothesis handlers_untimed :
  forall s i,
    forallb (fun e => negb (is_timer_call e))
      (snd (exec (handler (app_comp A) s i))) = true.
Hypothesis rerun_safe :
  timer_safe 1 (c_cleanup (app_comp A) ++ c_setup (app_comp A)) = true.
Hypothesis rerun_one :
  timers 1 (c_cleanup (app_comp A) ++ c_setup (app_comp A)) = 1.
Hypothesis cleanup_safe : timer_safe 1 (c_cleanup (app_comp A)) = true.
Hypothesis cleanup_none : timers 1 (c_cleanup (app_comp A)) = 0.
Hypothesis setup_safe : timer_safe 0 (c_setup (app_comp A)) = true.
Hypothesis setup_one : timers 0 (c_setup (app_comp A)) = 1.

Lemma settle_timer m r i rest :
  timer_safe (running m) (snd (settle A m r i rest)) = true
  /\ timers (running m) (snd (settle A m r i rest))
     = running (fst (settle A m r i rest)).
Proof.
  unfold settle, running. specialize (handlers_untimed r i).
  destruct (exec (handler (app_comp A) r i)) as [ups calls].
  cbn [snd] in handlers_untimed.
  destruct (alive m).
  - destruct (untimed_trace calls handlers_untimed 1) as [H1 H2].
    destruct (renders A (commit (app_comp A) (committed m) ups));
      cbn [fst snd alive]; rewrite timers_app, H1.
    + unfold rerun.
      destruct (deps_changed (app_comp A) (committed m) ups).
      * split; [apply timer_safe_app; rewrite ?H1; auto | exact rerun_one].
      * rewrite app_nil_r. split; [auto | reflexivity].
    + split; [apply timer_safe_app; rewrite ?H1; auto | exact cleanup_none].
  - destruct (untimed_trace calls handlers_untimed 0) as [H1 H2].
    cbn [fst snd alive]. split; auto.
Qed.

Lemma act_timer m a :
  timer_safe (running m) (snd (act A m a)) = true
  /\ timers (running m) (snd (act A m a)) = running (fst (act A m a)).
Proof.
  destruct a as [|k p|]; cbn [act].
  - unfold running. destruct (alive m) eqn:Ha; cbn [fst snd alive];
      rewrite ?Ha; split; reflexivity.
  - destruct (nth_error (pending m) k) as [r|]; [apply settle_timer|].
    cbn [fst snd]. unfold running. destruct (alive m); split; reflexivity.
  - destruct (alive m) eqn:Ha; [apply settle_timer|].
    cbn [fst snd]. unfold running. rewrite Ha. split; reflexivity.
Qed.

Lemma play_timer acts :
  forall m,
    timer_safe (running m) (snd (play A m acts)) = true
    /\ timers (running m) (snd (play A m acts))
       = running (fst (play A m acts)).
Proof.
  induction acts as [|a acts IH]; intros m.
  - cbn [play fst snd]. unfold running. destruct (alive m); split; reflexivity.
  - rewrite play_cons. cbn [fst snd].
    destruct (act_timer m a) as [H1 H2].
    destruct (IH (fst (act A m a))) as [IH1 IH2].
    split.
    + apply timer_safe_app; [exact H1 | rewrite H2; exact IH1].
    + rewrite timers_app, H2. exact IH2.
Qed.

Lemma one_timer_while_mounted_of : one_timer_while_mounted A.
Proof.
  intros acts e t.
  destruct (play_timer acts (fst (launch A))) as [H1 H2].
  fold e in H1, H2. cbn [launch fst snd at_rest running alive] in H1, H2.
  assert (Hsafe : timer_safe 0 t = true).
  { unfold t. cbn [launch snd]. apply timer_safe_app; [exact setup_safe|].
    rewrite setup_one. exact H1. }
  assert (Ht : timers 0 t = running (fst e)).
  { unfold t. cbn [launch snd]. rewrite timers_app, setup_one. exact H2. }
  split; [|split].
  - intros k. apply timer_safe_prefix, Hsafe.
  - exact Ht.
  - rewrite timers_app, Ht. unfold running, unmount.
    destruct (alive (fst e)); [exact cleanup_none | reflexivity].
Qed.

End Timer.

(** X7: the effects leak no timer. Over every execution of each component
    from its mount (ticks that overlap, clicks, renders that throw), at most
    one polling timer runs at any point: one as long as the tree is mounted
    (each re-run of the effect clears the timer before it sets a new one),
    none once a render threw and React removed the tree, and none after a
    dismount. *)
Theorem effects_keep_one_timer :
  forall (voices : list voice),
    one_timer_while_mounted LiveCognitiveCamera_app
    /\ one_timer_while_mounted (CinematicCognitiveUI_app voices)
    /\ one_timer_while_mounted CognitiveAISystem_app.
Proof.
  intros voices. split; [|split]; apply one_timer_while_mounted_of;
    try reflexivity; intros s i.
  - apply LiveCognitiveCamera_handler_untimed.
  - apply CinematicCognitiveUI_handler_untimed.
  - apply CognitiveAISystem_handler_untimed.
Qed.

(** ** Narration and the cleanup of the effect, over every execution *)

(** X8: in CognitiveAISystem a narration rarely outlives its tick. When a
    response is handled on a mounted tree, whatever render the tick closed
    over, either nothing is spoken, or the utterance spoken is cancelled
    before the tick is over (by the cleanup of the effect, re-run because the
    last spoken text changed, or run because the render threw), or the
    summary spoken already was the committed last spoken text (a tick that
    was outstanding while the same summary was narrated) and the utterance
    stays in flight. In LiveCognitiveCamera and CinematicCognitiveUI, whose
    cleanup does not cancel, an utterance spoken by a tick is always left in
    flight. *)
Theorem system_narration_is_cancelled_by_cleanup :
  forall (voices : list voice) (k : nat) (p : poll) (h : host),
    (forall s c q,
        let t :=
          snd (act CognitiveAISystem_app
                 (Build_instance CognitiveAISystem.comp s c true q)
                 (Respond k p)) in
        filter is_speak t = []
        \/ exists u,
            filter is_speak t = [SpeechSpeak u]
            /\ (in_flight (replay h t) = []
                \/ (in_flight (replay h t) = [u]
                    /\ same_value (CognitiveAISystem.lastSpoken s) (text u)
                       = true)))
    /\ (forall m,
        let t := snd (act LiveCognitiveCamera_app m (Respond k p)) in
        filter is_speak t = []
        \/ exists u, filter is_speak t = [SpeechSpeak u]
                     /\ in_flight (replay h t) = [u])
    /\ (forall m,
        let t :=
          snd (act (CinematicCognitiveUI_app voices) m (Respond k p)) in
        filter is_speak t = []
        \/ exists u, filter is_speak t = [SpeechSpeak u]
                     /\ in_flight (replay h t) = [u]).
Proof.
  intros voices k p h. split; [|split].
  - intros s c q t. subst t. cbn [act pending].
    destruct (nth_error _ _) as [r|]; [|left; reflexivity].
    unfold settle.
    cbn [handler c_tick c_update c_state app_comp CognitiveAISystem_app
         CognitiveAISystem.comp alive committed closure].
    destruct (poll_cases p) as [Hf | (st & data & ->)].
    + rewrite (CognitiveAISystem_tick_failed r p Hf).
      left. destruct (renders _ _); reflexivity.
    + rewrite CognitiveAISystem_tick_received.
      destruct (summary_of data) as [summary|e];
        [|left; destruct (renders _ _); reflexivity].
      destruct (CognitiveAISystem.tone_of data) as [tone|e];
        [|left; destruct (renders _ _); reflexivity].
      destruct (truthy summary
                && negb (strict_equal summary (CognitiveAISystem.lastSpoken r))
                && CognitiveAISystem.voiceEnabled r) eqn:Hg;
        [|left; destruct (renders _ _); reflexivity].
      right. eexists. destruct (renders _ _).
      * unfold rerun. cbn [deps_changed c_touches_dep c_apply_update
          CognitiveAISystem.comp CognitiveAISystem.touches_dep
          CognitiveAISystem.apply_update CognitiveAISystem.lastSpoken
          orb snd fst].
        destruct (same_value (CognitiveAISystem.lastSpoken s) summary) eqn:E.
        -- split; [reflexivity|]. right. split; [reflexivity|].
           cbn [text set_volume]. rewrite with_tone_text. exact E.
        -- split; [reflexivity|]. left. reflexivity.
      * split; [reflexivity|]. left. reflexivity.
  - intros m t. subst t. cbn [act].
    destruct (nth_error _ _) as [r|]; [|left; reflexivity].
    unfold settle.
    cbn [handler c_tick c_update c_state app_comp LiveCognitiveCamera_app
         LiveCognitiveCamera.comp].
    destruct (poll_cases p) as [Hf | (st & data & ->)].
    + rewrite (LiveCognitiveCamera_tick_failed r p Hf).
      split_ifs; left; reflexivity.
    + rewrite LiveCognitiveCamera_tick_received. unfold rerun.
      split_ifs;
        first [left; reflexivity | right; eexists; split; reflexivity].
  - intros m t. subst t. cbn [act].
    destruct (nth_error _ _) as [r|]; [|left; reflexivity].
    unfold settle.
    cbn [handler c_tick c_update c_state app_comp CinematicCognitiveUI_app
         CinematicCognitiveUI.comp].
    destruct (poll_cases p) as [Hf | (st & data & ->)].
    + rewrite (CinematicCognitiveUI_tick_failed voices r p Hf).
      split_ifs; left; reflexivity.
    + rewrite CinematicCognitiveUI_tick_received. cbv zeta. unfold rerun.
      split_ifs;
        first [left; reflexivity | right; eexists; split; reflexivity].
Qed.

(** ** The render of CinematicCognitiveUI *)

Lemma timeline_read (hist : list value) :
  forallb record_ok hist = true ->
  exists l, array_map summary_of hist = Ok l /\ forallb valid_child l = true.
Proof.
  induction hist as [|h hist IH]; cbn [forallb array_map]; [eauto|].
  intros H. apply andb_true_iff in H as [Hh Hr].
  unfold record_ok in Hh.
  destruct (summary_of h) as [v|e]; [|discriminate].
  destruct (IH Hr) as (l & -> & Hl). cbn. exists (v :: l).
  split; [reflexivity|]. cbn. rewrite Hh, Hl. reflexivity.
Qed.

Lemma cinematic_renders_intro (s : CinematicCognitiveUI.state) :
  thought_ok (CinematicCognitiveUI.thought s) = true ->
  forallb record_ok (CinematicCognitiveUI.history s) = true ->
  cinematic_renders s = true.
Proof.
  intros Ht Hh. destruct (timeline_read _ Hh) as (l & Hl & Hv).
  unfold cinematic_renders, cinematic_reads. cbv zeta.
  unfold thought_ok, record_ok in Ht.
  apply andb_true_iff in Ht as [Ht Hr].
  destruct (cinematic_risk (CinematicCognitiveUI.thought s)) as [r|e];
    [|discriminate].
  destruct (truthy (CinematicCognitiveUI.thought s)).
  - destruct (overall_of (CinematicCognitiveUI.thought s)) as [o|e];
      [|discriminate].
    destruct (summary_of (CinematicCognitiveUI.thought s)) as [sm|e];
      [|discriminate].
    cbn [bind ret Monad_outcome]. rewrite Hl. cbn. rewrite Hr, Ht, Hv.
    reflexivity.
  - cbn [bind ret Monad_outcome]. rewrite Hl. cbn. rewrite Hr, Hv.
    reflexivity.
Qed.

Lemma forallb_firstn (f : value -> bool) (n : nat) (l : list value) :
  forallb f l = true -> forallb f (firstn n l) = true.
Proof.
  revert n; induction l as [|x l IH]; intros n H; destruct n; cbn in *; auto.
  apply andb_true_iff in H as [-> H]. cbn. auto.
Qed.





(** ** Renders that throw remove the tree for good *)

Lemma untimed_filter (t : list event) :
  forallb (fun e => negb (is_timer_call e)) t = true ->
  filter is_timer_call t = [].
Proof.
  induction t as [|e t IH]; cbn [forallb filter]; [reflexivity|].
  intros H. apply andb_true_iff in H as [He H].
  destruct (is_timer_call e); [discriminate | auto].
Qed.

Lemma remove_nth_length {X : Type} (k : nat) (l : list X) :
  length (remove_nth k l) <= length l.
Proof.
  unfold remove_nth. rewrite length_app, length_firstn, length_skipn. lia.
Qed.

Section Crash.

Variable A : webapp.
Hypothesis handlers_untimed :
  forall s i,
    forallb (fun e => negb (is_timer_call e))
      (snd (exec (handler (app_comp A) s i))) = true.
Hypothesis cleanup_clears :
  filter is_timer_call (c_cleanup (app_comp A)) = [ClearInterval].

Lemma act_removed (m : instance (app_comp A)) a :
  alive m = false ->
  alive (fst (act A m a)) = false
  /\ committed (fst (act A m a)) = committed m
  /\ filter is_timer_call (snd (act A m a)) = []
  /\ length (pending (fst (act A m a))) <= length (pending m).
Proof.
  intros Ha. destruct a as [|k p|]; cbn [act]; rewrite ?Ha; cbn [fst snd];
    auto.
  destruct (nth_error (pending m) k) as [r|]; cbn [fst snd]; auto.
  unfold settle. rewrite Ha.
  assert (Hu := handlers_untimed r (Tick p)).
  destruct (exec (handler (app_comp A) r (Tick p))) as [ups calls].
  cbn [fst snd alive committed pending] in *.
  repeat split; [apply untimed_filter, Hu | apply remove_nth_length].
Qed.

Lemma play_removed acts :
  forall m : instance (app_comp A),
    alive m = false ->
    alive (fst (play A m acts)) = false
    /\ committed (fst (play A m acts)) = committed m
    /\ filter is_timer_call (snd (play A m acts)) = []
    /\ length (pending (fst (play A m acts))) <= length (pending m).
Proof.
  induction acts as [|a acts IH]; intros m Ha; [cbn; auto|].
  rewrite play_cons. cbn [fst snd].
  destruct (act_removed m a Ha) as (H1 & H2 & H3 & H4).
  destruct (IH _ H1) as (I1 & I2 & I3 & I4).
  rewrite filter_app, H3, I3, I2, H2. repeat split; auto. lia.
Qed.

Lemma crashed_for_good_of (m : instance (app_comp A)) k data :
  alive m = true ->
  (forall r,
      nth_error (pending m) k = Some r ->
      renders A (commit (app_comp A) (committed m)
                   (fst (exec (c_tick (app_comp A) r (received data)))))
      = false) ->
  k < length (pending m) ->
  crashed_for_good A m k data.
Proof.
  intros Ha Hr Hk. unfold crashed_for_good. cbv zeta. cbn [act].
  destruct (nth_error (pending m) k) as [r|] eqn:Hn;
    [|apply nth_error_None in Hn; lia].
  specialize (Hr r eq_refl).
  assert (Hu := handlers_untimed r (Tick (received data))).
  unfold settle. rewrite Ha. cbn [handler] in *.
  destruct (exec (c_tick (app_comp A) r (received data))) as [ups calls].
  cbn [fst snd] in *. rewrite Hr. cbn [fst snd alive].
  split; [reflexivity|]. split.
  - rewrite filter_app, (untimed_filter _ Hu), cleanup_clears. reflexivity.
  - intros acts. apply play_removed. reflexivity.
Qed.

Lemma act_commits (m : instance (app_comp A)) k r p :
  alive m = true -> nth_error (pending m) k = Some r ->
  committed (fst (act A m (Respond k p)))
  = commit (app_comp A) (committed m)
      (fst (exec (c_tick (app_comp A) r p))).
Proof.
  intros Ha Hn. cbn [act]. rewrite Hn. unfold settle. rewrite Ha.
  cbn [handler].
  destruct (exec (c_tick (app_comp A) r p)) as [ups calls]. cbn [fst].
  destruct (renders A _); reflexivity.
Qed.

End Crash.

Lemma timeline_refused (hist : list value) (h : value) :
  In h hist -> record_ok h = false ->
  match array_map summary_of hist with
  | Ok l => forallb valid_child l
  | Throw _ => false
  end = false.
Proof.
  induction hist as [|x hist IH]; intros Hin Hh; [destruct Hin|].
  cbn [array_map].
  destruct (summary_of x) as [v|e] eqn:Hx; cbn [bind Monad_outcome];
    [|reflexivity].
  destruct Hin as [-> | Hin].
  - unfold record_ok in Hh. rewrite Hx in Hh.
    destruct (array_map summary_of hist); cbn; [|reflexivity].
    rewrite Hh. reflexivity.
  - specialize (IH Hin Hh).
    destruct (array_map summary_of hist); cbn; [|reflexivity].
    rewrite IH. apply andb_false_r.
Qed.

Lemma cinematic_renders_refused (s : CinematicCognitiveUI.state) (h : value) :
  In h (CinematicCognitiveUI.history s) -> record_ok h = false ->
  cinematic_renders s = false.
Proof.
  intros Hin Hh. assert (Ht := timeline_refused _ h Hin Hh).
  unfold cinematic_renders, cinematic_reads. cbv zeta.
  destruct (array_map summary_of (CinematicCognitiveUI.history s)) as [l|e'].
  - destruct (truthy (CinematicCognitiveUI.thought s)).
    + destruct (overall_of (CinematicCognitiveUI.thought s));
        cbn [bind ret Monad_outcome]; [|reflexivity].
      destruct (cinematic_risk (CinematicCognitiveUI.thought s));
        cbn [bind ret Monad_outcome]; [|reflexivity].
      destruct (summary_of (CinematicCognitiveUI.thought s));
        cbn [bind ret Monad_outcome]; [|reflexivity].
      cbn [risk_label floating_summary timeline]. rewrite Ht.
      apply andb_false_r.
    + cbn [bind ret Monad_outcome].
      destruct (cinematic_risk (CinematicCognitiveUI.thought s));
        cbn [bind ret Monad_outcome]; [|reflexivity].
      cbn [risk_label floating_summary timeline]. rewrite Ht.
      apply andb_false_r.
  - destruct (truthy (CinematicCognitiveUI.thought s)).
    + destruct (overall_of (CinematicCognitiveUI.thought s));
        cbn [bind ret Monad_outcome]; [|reflexivity].
      destruct (cinematic_risk (CinematicCognitiveUI.thought s));
        cbn [bind ret Monad_outcome]; [|reflexivity].
      destruct (summary_of (CinematicCognitiveUI.thought s));
        cbn [bind ret Monad_outcome]; reflexivity.
    + cbn [bind ret Monad_outcome].
      destruct (cinematic_risk (CinematicCognitiveUI.thought s));
        cbn [bind ret Monad_outcome]; reflexivity.
Qed.

(** What a successful tick commits, whatever render it closed over. *)
Lemma LiveCognitiveCamera_tick_commits r s data :
  LiveCognitiveCamera.thought
    (commit LiveCognitiveCamera.comp s
       (fst (exec (LiveCognitiveCamera.tick r (received data))))) = data.
Proof.
  unfold received. rewrite LiveCognitiveCamera_tick_received.
  split_ifs; reflexivity.
Qed.

Lemma CognitiveAISystem_tick_commits r s data :
  CognitiveAISystem.thought
    (commit CognitiveAISystem.comp s
       (fst (exec (CognitiveAISystem.tick r (received data))))) = data.
Proof.
  unfold received. rewrite CognitiveAISystem_tick_received.
  destruct (summary_of data); [|reflexivity].
  destruct (CognitiveAISystem.tone_of data); [|reflexivity].
  split_ifs; reflexivity.
Qed.

Lemma CinematicCognitiveUI_tick_commits voices r s data :
  let s' :=
    commit (CinematicCognitiveUI.comp voices) s
      (fst (exec (CinematicCognitiveUI.tick voices r (received data)))) in
  CinematicCognitiveUI.thought s' = data
  /\ CinematicCognitiveUI.history s'
     = data :: firstn 6 (CinematicCognitiveUI.history s).
Proof.
  unfold received. rewrite CinematicCognitiveUI_tick_received. cbv zeta.
  split_ifs; split; reflexivity.
Qed.

(** X14: a Thought that the render refuses takes the interface down for
    good. When the response to an outstanding tick of a mounted component
    carries a body that the render refuses (the overlay of LiveCognitiveCamera
    and CognitiveAISystem on a truthy body whose summary, uncertainty or risk
    level cannot be read or whose summary or level is an object; the timeline
    of CinematicCognitiveUI on a body whose summary cannot be read or is an
    object), the body is committed as the Thought (and pushed on the history
    of CinematicCognitiveUI), the tree is removed and its timer cleared, and
    nothing that happens afterwards (responses to the ticks still
    outstanding, clicks) mounts it again, changes its state or sets a timer:
    polling has stopped. *)
Theorem refused_thought_stops_polling :
  forall (voices : list voice) (data : value),
    (forall m k,
        overlay_renders data = false ->
        alive m = true -> k < length (pending m) ->
        crashed_for_good LiveCognitiveCamera_app m k data
        /\ LiveCognitiveCamera.thought
             (committed
                (fst (act LiveCognitiveCamera_app m
                        (Respond k (received data))))) = data)
    /\ (forall m k,
           record_ok data = false ->
           alive m = true -> k < length (pending m) ->
           crashed_for_good (CinematicCognitiveUI_app voices) m k data
           /\ CinematicCognitiveUI.history
                (committed
                   (fst (act (CinematicCognitiveUI_app voices) m
                           (Respond k (received data)))))
              = data :: firstn 6 (CinematicCognitiveUI.history (committed m)))
    /\ (forall m k,
           overlay_renders data = false ->
           alive m = true -> k < length (pending m) ->
           crashed_for_good CognitiveAISystem_app m k data
           /\ CognitiveAISystem.thought
                (committed
                   (fst (act CognitiveAISystem_app m
                           (Respond k (received data))))) = data).
Proof.
  intros voices data. split; [|split]; intros m k Hd Ha Hk.
  - split.
    + apply crashed_for_good_of; try assumption; try reflexivity.
      * intros s i. apply LiveCognitiveCamera_handler_untimed.
      * intros r _.
        cbn [renders LiveCognitiveCamera_app app_comp c_tick
               LiveCognitiveCamera.comp].
        rewrite LiveCognitiveCamera_tick_commits. exact Hd.
    + destruct (nth_error (pending m) k) as [r|] eqn:Hn;
        [|apply nth_error_None in Hn; lia].
      rewrite (act_commits LiveCognitiveCamera_app m k r _ Ha Hn).
      apply LiveCognitiveCamera_tick_commits.
  - split.
    + apply crashed_for_good_of; try assumption; try reflexivity.
      * intros s i. apply CinematicCognitiveUI_handler_untimed.
      * intros r _.
        cbn [renders CinematicCognitiveUI_app app_comp c_tick
               CinematicCognitiveUI.comp].
        apply (cinematic_renders_refused _ data); [|exact Hd].
        destruct (CinematicCognitiveUI_tick_commits voices r (committed m)
                    data) as [_ Hh].
        exact (eq_ind_r (In data) (in_eq data _) Hh).
    + destruct (nth_error (pending m) k) as [r|] eqn:Hn;
        [|apply nth_error_None in Hn; lia].
      rewrite (act_commits (CinematicCognitiveUI_app voices) m k r _ Ha Hn).
      apply CinematicCognitiveUI_tick_commits.
  - split.
    + apply crashed_for_good_of; try assumption; try reflexivity.
      * intros s i. apply CognitiveAISystem_handler_untimed.
      * intros r _.
        cbn [renders CognitiveAISystem_app app_comp c_tick
               CognitiveAISystem.comp].
        rewrite CognitiveAISystem_tick_commits. exact Hd.
    + destruct (nth_error (pending m) k) as [r|] eqn:Hn;
        [|apply nth_error_None in Hn; lia].
      rewrite (act_commits CognitiveAISystem_app m k r _ Ha Hn).
      apply CognitiveAISystem_tick_commits.
Qed.

(** A body that the render refuses at the first response after the mount of
    LiveCognitiveCamera. *)
Lemma refused_thought_stops_polling_witness :
  let m :=
    Build_instance LiveCognitiveCamera.comp LiveCognitiveCamera.initial
      LiveCognitiveCamera.initial true [LiveCognitiveCamera.initial] in
  overlay_renders not_found_body = false
  /\ crashed_for_good LiveCognitiveCamera_app m 0 not_found_body
  /\ LiveCognitiveCamera.thought
       (committed
          (fst (act LiveCognitiveCamera_app m
                  (Respond 0 (received not_found_body))))) = not_found_body.
Proof.
  intros m. split; [reflexivity|].
  apply (proj1 (refused_thought_stops_polling [] not_found_body) m 0).
  - reflexivity.
  - reflexivity.
  - cbn. lia.
Defined.

(** ** Ticks that overlap *)

(** Two ticks of the render of [s] answered one after the other, both
    renders succeeding: both handlers ran against [s]. *)
Lemma overlap_trace (A : webapp) (s : c_state (app_comp A)) (p : poll) :
  let ups := fst (exec (c_tick (app_comp A) s p)) in
  let calls := snd (exec (c_tick (app_comp A) s p)) in
  let s1 := commit (app_comp A) s ups in
  renders A s1 = true -> renders A (commit (app_comp A) s1 ups) = true ->
  snd (play A (at_rest A s) [Fire; Fire; Respond 0 p; Respond 0 p])
  = (calls ++ rerun (app_comp A) s ups)
    ++ calls ++ rerun (app_comp A) s1 ups.
Proof.
  cbv zeta. intros H1 H2.
  cbn [play act at_rest alive pending closure committed app nth_error
         remove_nth firstn skipn].
  unfold settle. cbn [handler alive committed closure pending].
  destruct (exec (c_tick (app_comp A) s p)) as [ups calls] eqn:E.
  cbn [fst snd] in *. rewrite H1. cbn [alive committed pending closure].
  rewrite E, H2. cbn [fst snd app]. rewrite app_nil_r. reflexivity.
Qed.

Lemma overlap_spoken (A : webapp) (s : c_state (app_comp A)) (p : poll) :
  spoken (c_cleanup (app_comp A)) = [] -> spoken (c_setup (app_comp A)) = [] ->
  let ups := fst (exec (c_tick (app_comp A) s p)) in
  let s1 := commit (app_comp A) s ups in
  renders A s1 = true -> renders A (commit (app_comp A) s1 ups) = true ->
  spoken (snd (play A (at_rest A s) [Fire; Fire; Respond 0 p; Respond 0 p]))
  = spoken (snd (exec (c_tick (app_comp A) s p)))
    ++ spoken (snd (exec (c_tick (app_comp A) s p))).
Proof.
  cbv zeta. intros Hc Hs H1 H2. rewrite (overlap_trace A s p H1 H2).
  rewrite !spoken_app, !rerun_speaks_nothing by assumption.
  rewrite !app_nil_r. reflexivity.
Qed.

Lemma CinematicCognitiveUI_tick_renders voices r s data :
  thought_ok data = true -> record_ok data = true ->
  forallb record_ok (CinematicCognitiveUI.history s) = true ->
  let s' :=
    commit (CinematicCognitiveUI.comp voices) s
      (fst (exec (CinematicCognitiveUI.tick voices r (received data)))) in
  cinematic_renders s' = true
  /\ forallb record_ok (CinematicCognitiveUI.history s') = true.
Proof.
  intros Ht Hrec Hs s'.
  destruct (CinematicCognitiveUI_tick_commits voices r s data) as [T1 T2].
  fold s' in T1, T2.
  assert (Hh : forallb record_ok (CinematicCognitiveUI.history s') = true).
  { rewrite T2. cbn [forallb]. rewrite Hrec. apply forallb_firstn, Hs. }
  split; [|exact Hh].
  apply cinematic_renders_intro; [rewrite T1; exact Ht | exact Hh].
Qed.

(** X20: the guard against repeated speech compares with the last spoken
    text of the render that started the tick. When two ticks of one render
    are outstanding together (the first response takes longer than the
    polling period) and both responses carry the same summary, not empty and
    not the last spoken text, the summary is spoken twice, in
    LiveCognitiveCamera and in CognitiveAISystem; CinematicCognitiveUI speaks
    the phrase twice. *)
Theorem overlapping_ticks_repeat_narration :
  forall (voices : list voice) (data th : value) (sm ph : string)
         (ld : bool) (hist : list value),
    summary_of data = Ok (Str sm) -> sm <> "" ->
    overlay_renders data = true ->
    CinematicCognitiveUI.humanizeThought data = Ok ph ->
    thought_ok data = true -> forallb record_ok hist = true ->
    let overlap :=
      [Fire; Fire; Respond 0 (received data); Respond 0 (received data)] in
    spoken
      (snd (play LiveCognitiveCamera_app
              (at_rest LiveCognitiveCamera_app
                 {| LiveCognitiveCamera.thought := th;
                    LiveCognitiveCamera.voiceEnabled := true;
                    LiveCognitiveCamera.lastSpoken := Str "" |})
              overlap))
    = [Str sm; Str sm]
    /\ spoken
         (snd (play CognitiveAISystem_app
                 (at_rest CognitiveAISystem_app
                    {| CognitiveAISystem.thought := th;
                       CognitiveAISystem.lastSpoken := Str "";
                       CognitiveAISystem.voiceEnabled := true |})
                 overlap))
       = [Str sm; Str sm]
    /\ spoken
         (snd (play (CinematicCognitiveUI_app voices)
                 (at_rest (CinematicCognitiveUI_app voices)
                    {| CinematicCognitiveUI.thought := th;
                       CinematicCognitiveUI.loading := ld;
                       CinematicCognitiveUI.lastSpoken := Str "";
                       CinematicCognitiveUI.voiceEnabled := true;
                       CinematicCognitiveUI.history := hist |})
                 overlap))
       = [Str ph; Str ph].
Proof.
  intros voices data th sm ph ld hist Hs Hne Hr Hh Ht Hhist overlap.
  assert (He : (sm =? "") = false) by (apply String.eqb_neq, Hne).
  assert (Hp : (ph =? "") = false)
    by (apply phrases_are_nonempty, (humanizeThought_in_phrases data), Hh).
  assert (Hrec : record_ok data = true)
    by (unfold record_ok; rewrite Hs; reflexivity).
  split; [|split]; unfold overlap.
  - rewrite overlap_spoken; try reflexivity.
    + cbn [app_comp LiveCognitiveCamera_app c_tick LiveCognitiveCamera.comp].
      unfold received. rewrite LiveCognitiveCamera_tick_received, Hs.
      cbn [truthy strict_equal equal_with LiveCognitiveCamera.lastSpoken
             LiveCognitiveCamera.voiceEnabled].
      rewrite He. reflexivity.
    + cbn [renders app_comp LiveCognitiveCamera_app c_tick
             LiveCognitiveCamera.comp].
      rewrite LiveCognitiveCamera_tick_commits. exact Hr.
    + cbn [renders app_comp LiveCognitiveCamera_app c_tick
             LiveCognitiveCamera.comp].
      rewrite LiveCognitiveCamera_tick_commits. exact Hr.
  - destruct (tone_of_summarised data _ Hs) as [tone Htone].
    rewrite overlap_spoken; try reflexivity.
    + cbn [app_comp CognitiveAISystem_app c_tick CognitiveAISystem.comp].
      unfold received. rewrite CognitiveAISystem_tick_received, Hs, Htone.
      cbn [truthy strict_equal equal_with CognitiveAISystem.lastSpoken
             CognitiveAISystem.voiceEnabled].
      rewrite He. cbn [negb andb snd spoken app].
      cbn [text set_volume]. rewrite with_tone_text. reflexivity.
    + cbn [renders app_comp CognitiveAISystem_app c_tick
             CognitiveAISystem.comp].
      rewrite CognitiveAISystem_tick_commits. exact Hr.
    + cbn [renders app_comp CognitiveAISystem_app c_tick
             CognitiveAISystem.comp].
      rewrite CognitiveAISystem_tick_commits. exact Hr.
  - rewrite overlap_spoken; try reflexivity.
    + cbn [app_comp CinematicCognitiveUI_app c_tick CinematicCognitiveUI.comp].
      unfold received. rewrite CinematicCognitiveUI_tick_received, Hh.
      cbv zeta.
      cbn [truthy strict_equal equal_with CinematicCognitiveUI.lastSpoken
             CinematicCognitiveUI.voiceEnabled].
      rewrite Hp. reflexivity.
    + apply CinematicCognitiveUI_tick_renders; assumption.
    + apply CinematicCognitiveUI_tick_renders; try assumption.
      apply CinematicCognitiveUI_tick_renders; assumption.
Qed.

(** Two outstanding ticks answered with the same Thought. *)
Lemma overlapping_ticks_repeat_narration_witness :
  let data := well_formed_thought "A" 0.5 "LOW" ["person"] in
  let overlap :=
    [Fire; Fire; Respond 0 (received data); Respond 0 (received data)] in
  spoken
    (snd (play LiveCognitiveCamera_app
            (at_rest LiveCognitiveCamera_app
               {| LiveCognitiveCamera.thought := Null;
                  LiveCognitiveCamera.voiceEnabled := true;
                  LiveCognitiveCamera.lastSpoken := Str "" |})
            overlap))
  = [Str "A"; Str "A"]
  /\ spoken
       (snd (play CognitiveAISystem_app
               (at_rest CognitiveAISystem_app
                  {| CognitiveAISystem.thought := Null;
                     CognitiveAISystem.lastSpoken := Str "";
                     CognitiveAISystem.voiceEnabled := true |})
               overlap))
     = [Str "A"; Str "A"]
  /\ spoken
       (snd (play (CinematicCognitiveUI_app [])
               (at_rest (CinematicCognitiveUI_app [])
                  {| CinematicCognitiveUI.thought := Null;
                     CinematicCognitiveUI.loading := true;
                     CinematicCognitiveUI.lastSpoken := Str "";
                     CinematicCognitiveUI.voiceEnabled := true;
                     CinematicCognitiveUI.history := [] |})
               overlap))
     = [Str CinematicCognitiveUI.person_low;
        Str CinematicCognitiveUI.person_low].
Proof.
  intros data.
  apply (overlapping_ticks_repeat_narration [] data Null "A"
           CinematicCognitiveUI.person_low true []).
  - reflexivity.
  - discriminate.
  - reflexivity.
  - reflexivity.
  - reflexivity.
  - reflexivity.
Defined.

(** ** The history buffer over every execution *)

Lemma act_committed (A : webapp) (m : instance (app_comp A)) (a : action) :
  committed (fst (act A m a)) =
  match a with
  | Fire => committed m
  | Respond k p =>
      match nth_error (pending m) k with
      | Some r =>
          if alive m then
            commit (app_comp A) (committed m)
              (fst (exec (handler (app_comp A) r (Tick p))))
          else committed m
      | None => committed m
      end
  | Press =>
      if alive m then
        commit (app_comp A) (committed m)
          (fst (exec (handler (app_comp A) (committed m) Click)))
      else committed m
  end.
Proof.
  destruct a as [|k p|]; cbn [act].
  - destruct (alive m); reflexivity.
  - destruct (nth_error (pending m) k) as [r|]; [|reflexivity].
    unfold settle.
    destruct (exec (handler (app_comp A) r (Tick p))) as [ups calls].
    cbn [fst]. destruct (alive m); [|reflexivity].
    destruct (renders A _); reflexivity.
  - destruct (alive m) eqn:Ha; [|reflexivity].
    unfold settle. rewrite Ha.
    destruct (exec (handler (app_comp A) (committed m) Click))
      as [ups calls].
    cbn [fst]. destruct (renders A _); reflexivity.
Qed.

(** What a handler does to the history, whatever render it closed over. *)
Lemma CinematicCognitiveUI_handler_history voices
  (r s : CinematicCognitiveUI.state) (i : input) :
  CinematicCognitiveUI.history
    (commit (CinematicCognitiveUI.comp voices) s
       (fst (exec (handler (CinematicCognitiveUI.comp voices) r i)))) =
  match decoded [i] with
  | data :: _ => data :: firstn 6 (CinematicCognitiveUI.history s)
  | [] => CinematicCognitiveUI.history s
  end.
Proof.
  destruct i as [p|];
    cbn [handler c_tick c_on_click c_update c_state
           CinematicCognitiveUI.comp].
  - destruct (poll_cases p) as [Hf | (st & data & ->)].
    + rewrite (CinematicCognitiveUI_tick_failed voices r p Hf).
      destruct Hf as [-> | [st ->]]; reflexivity.
    + rewrite CinematicCognitiveUI_tick_received. cbv zeta.
      cbn [decoded body]. split_ifs; reflexivity.
  - rewrite CinematicCognitiveUI_click. reflexivity.
Qed.

Lemma CinematicCognitiveUI_act_history voices
  (m : instance (app_comp (CinematicCognitiveUI_app voices))) (a : action) :
  CinematicCognitiveUI.history
    (committed (fst (act (CinematicCognitiveUI_app voices) m a))) =
  match a with
  | Respond k p =>
      match nth_error (pending m) k, decoded [Tick p] with
      | Some _, data :: _ =>
          if alive m then
            data :: firstn 6 (CinematicCognitiveUI.history (committed m))
          else CinematicCognitiveUI.history (committed m)
      | _, _ => CinematicCognitiveUI.history (committed m)
      end
  | Fire | Press => CinematicCognitiveUI.history (committed m)
  end.
Proof.
  rewrite act_committed. destruct a as [|k p|].
  - reflexivity.
  - destruct (nth_error (pending m) k) as [r|]; [|reflexivity].
    destruct (alive m).
    + exact (CinematicCognitiveUI_handler_history voices r (committed m)
               (Tick p)).
    + destruct (decoded [Tick p]); reflexivity.
  - destruct (alive m); [|reflexivity].
    exact (CinematicCognitiveUI_handler_history voices (committed m)
             (committed m) Click).
Qed.

(** X19: the history buffer of CinematicCognitiveUI over every execution
    (ticks that overlap, clicks, renders that throw). From the mount it never
    holds more than 7 records. A response handled on the mounted tree whose
    body was decoded puts the body in front of the first 6 records, whatever
    its status, whatever render the tick closed over and whether or not the
    rest of the tick or the next render throws; a rejected fetch, a body that
    is not JSON, the firing of the timer and a click leave the buffer as it
    is, and so does everything that happens after the tree was removed. *)
Theorem history_is_bounded_in_every_execution :
  forall (voices : list voice),
    (forall acts,
        length
          (CinematicCognitiveUI.history
             (committed
                (fst (play (CinematicCognitiveUI_app voices)
                        (fst (launch (CinematicCognitiveUI_app voices)))
                        acts)))) <= 7)
    /\ (forall m k r st data,
           alive m = true -> nth_error (pending m) k = Some r ->
           CinematicCognitiveUI.history
             (committed
                (fst (act (CinematicCognitiveUI_app voices) m
                        (Respond k
                           (FetchResolved {| status := st;
                                             body := Some data |})))))
           = data :: firstn 6 (CinematicCognitiveUI.history (committed m)))
    /\ (forall m k p,
           failing p ->
           CinematicCognitiveUI.history
             (committed
                (fst (act (CinematicCognitiveUI_app voices) m (Respond k p))))
           = CinematicCognitiveUI.history (committed m))
    /\ (forall m,
           CinematicCognitiveUI.history
             (committed (fst (act (CinematicCognitiveUI_app voices) m Fire)))
           = CinematicCognitiveUI.history (committed m)
           /\ CinematicCognitiveUI.history
                (committed
                   (fst (act (CinematicCognitiveUI_app voices) m Press)))
              = CinematicCognitiveUI.history (committed m))
    /\ (forall m a,
           alive m = false ->
           CinematicCognitiveUI.history
             (committed (fst (act (CinematicCognitiveUI_app voices) m a)))
           = CinematicCognitiveUI.history (committed m)).
Proof.
  intros voices. split; [|split; [|split; [|split]]].
  - intros acts.
    assert (H : forall m : instance (app_comp (CinematicCognitiveUI_app voices)),
               length (CinematicCognitiveUI.history (committed m)) <= 7 ->
               length
                 (CinematicCognitiveUI.history
                    (committed
                       (fst (play (CinematicCognitiveUI_app voices) m acts))))
               <= 7).
    { induction acts as [|a acts IH]; intros m Hm; [exact Hm|].
      rewrite play_cons. cbn [fst]. apply IH.
      rewrite CinematicCognitiveUI_act_history.
      destruct a as [|k p|]; try exact Hm.
      destruct (nth_error (pending m) k); [|exact Hm].
      destruct (decoded [Tick p]); [exact Hm|].
      destruct (alive m); [|exact Hm].
      cbn [length]. rewrite length_firstn. lia. }
    apply H. cbn. lia.
  - intros m k r st data Ha Hn.
    rewrite CinematicCognitiveUI_act_history, Hn, Ha. reflexivity.
  - intros m k p Hf. rewrite CinematicCognitiveUI_act_history.
    destruct (nth_error (pending m) k); [|reflexivity].
    destruct Hf as [-> | [st ->]]; reflexivity.
  - intros m. split; apply CinematicCognitiveUI_act_history.
  - intros m a Ha. rewrite CinematicCognitiveUI_act_history, Ha.
    destruct a as [|k p|]; try reflexivity.
    destruct (nth_error (pending m) k); [|reflexivity].
    destruct (decoded [Tick p]); reflexivity.
Qed.

(** The eighth Thought of a mounted component evicts the first. *)
Lemma history_is_bounded_in_every_execution_witness :
  let m :=
    Build_instance (CinematicCognitiveUI.comp [])
      {| CinematicCognitiveUI.thought := Null;
         CinematicCognitiveUI.loading := false;
         CinematicCognitiveUI.lastSpoken := Str "";
         CinematicCognitiveUI.voiceEnabled := false;
         CinematicCognitiveUI.history := seven_thoughts |}
      CinematicCognitiveUI.initial true [CinematicCognitiveUI.initial] in
  CinematicCognitiveUI.history
    (committed
       (fst (act (CinematicCognitiveUI_app []) m
               (Respond 0
                  (FetchResolved {| status := 404;
                                    body := Some not_found_body |})))))
  = not_found_body :: removelast seven_thoughts.
Proof.
  intros m.
  exact (proj1 (proj2 (history_is_bounded_in_every_execution []))
           m 0 CinematicCognitiveUI.initial 404 not_found_body
           eq_refl eq_refl).
Defined.
